(** * django_tenants: search-path routing of the PostgreSQL backend

    A shallow embedding of
    - [django_tenants/postgresql_backend/base.py]: the identifier and role-name
      validators and [DatabaseWrapper] (the routing state and [_cursor]);
    - [django_tenants/management/commands/__init__.py]: [BaseTenantCommand],
      which iterates a command over the registered tenants, the tenant
      chooser of [InteractiveTenantOption] with [TenantWrappedCommand], and
      the scope flags of [SyncCommon].

    Python objects are records, attribute assignment is explicit state
    passing, and every call into the database driver is recorded in a trace
    of events.  Values that the modules import from elsewhere
    ([get_public_role_name], [get_limit_set_calls], the Django settings) are
    fields of a configuration record. *)

From Stdlib Require Import ZArith Lia Bool Ascii String.
From stdpp Require Import gmap strings list.

Open Scope string_scope.
Open Scope list_scope.

(** ** Regular expressions of [base.py]

    Only the constructs that occur in [SQL_IDENTIFIER_RE] are embedded: the
    anchors, a character class given by its ranges, and the bounded
    repetition [{m,n}] (a single class is the repetition [{1,1}]).  A Python
    [str] is a [string]; a character outside Latin-1 is in no class of the
    pattern and behaves like any other character outside them. *)

Module Re.

Inductive elem : Type :=
| Bol                                              (* ^ *)
| Eol                                              (* $ *)
| Rep (cls : list (ascii * ascii)) (lo hi : nat).  (* [...]{lo,hi} *)

Definition pattern := list elem.

Definition newline : ascii := "010"%char.

Definition in_range (r : ascii * ascii) (c : ascii) : bool :=
  (nat_of_ascii (fst r) <=? nat_of_ascii c)%nat
  && (nat_of_ascii c <=? nat_of_ascii (snd r))%nat.

Definition in_class (cls : list (ascii * ascii)) (c : ascii) : bool :=
  existsb (fun r => in_range r c) cls.

(** Without [re.MULTILINE], [$] matches at the end of the string and also
    just before a newline that is the last character of the string. *)
Definition at_eol (s : string) : bool :=
  match s with
  | EmptyString => true
  | String c EmptyString => if ascii_dec c newline then true else false
  | String _ (String _ _) => false
  end.

(** [rep cls k lo hi pos s]: at position [pos], consume between [lo] and
    [hi] characters of class [cls] from the front of [s], longest first,
    and hand the new position and the rest to the continuation [k]; a
    shorter run is tried when [k] fails. *)
Fixpoint rep (cls : list (ascii * ascii)) (k : nat -> string -> bool)
         (lo hi : nat) (pos : nat) (s : string) : bool :=
  let stop := match lo with O => k pos s | S _ => false end in
  match hi with
  | O => stop
  | S hi' =>
      match s with
      | String c s' =>
          if in_class cls c
          then rep cls k (Nat.pred lo) hi' (S pos) s' || stop
          else stop
      | EmptyString => stop
      end
  end.

(** [match_here p pos s]: does [p] match a prefix of [s], the part of the
    subject that starts at position [pos]? *)
Fixpoint match_here (p : pattern) (pos : nat) (s : string) : bool :=
  match p with
  | [] => true
  | Bol :: p' => (pos =? 0)%nat && match_here p' pos s
  | Eol :: p' => at_eol s && match_here p' pos s
  | Rep cls lo hi :: p' => rep cls (match_here p') lo hi pos s
  end.

(** [bool(pattern.match(s))] *)
Definition matches (p : pattern) (s : string) : bool := match_here p 0 s.

End Re.

(** ** Validators *)

Definition cls_head : list (ascii * ascii) :=
  [("_", "_"); ("a", "z"); ("A", "Z")]%char.

Definition cls_tail : list (ascii * ascii) :=
  [("_", "_"); ("a", "z"); ("A", "Z"); ("0", "9")]%char.

(** [SQL_IDENTIFIER_RE = re.compile(r'^[_a-zA-Z][_a-zA-Z0-9]{,62}$')] *)
Definition SQL_IDENTIFIER_RE : Re.pattern :=
  [Re.Bol; Re.Rep cls_head 1 1; Re.Rep cls_tail 0 62; Re.Eol].

Definition _is_valid_identifier (identifier : string) : bool :=
  Re.matches SQL_IDENTIFIER_RE identifier.

(** The exceptions that the embedded code raises or lets through. *)
Inductive exception : Type :=
| ImproperlyConfigured (msg : string)
| ValidationError (msg : string)
| AttributeError (attr : string)
| DjangoDatabaseError              (* django.db.utils.DatabaseError *)
| Psycopg2InternalError            (* psycopg2.InternalError *)
| DoesNotExist
| MultipleObjectsReturned
| OtherException (what : string).

Definition result (A : Type) : Type := (A + exception)%type.
Definition Ok {A} (a : A) : result A := inl a.
Definition Raise {A} (e : exception) : result A := inr e.

Definition _check_identifier (identifier : string) : result unit :=
  if negb (_is_valid_identifier identifier)
  then Raise (ValidationError "Invalid string used for the identifier.")
  else Ok tt.

Definition _is_valid_role_name (name : string) : bool := true.

Definition _check_role_name (name : string) : result unit :=
  if negb (_is_valid_role_name name)
  then Raise (ValidationError "Invalid string used for the schema name.")
  else Ok tt.

(** ** The identifier rule in the words of the specification

    "leading letter/underscore, then up to 62 alphanumerics/underscores":
    the whole string, 63 characters at most. *)

Definition is_letter (c : ascii) : bool :=
  Re.in_range ("a", "z")%char c || Re.in_range ("A", "Z")%char c.

Definition is_digit (c : ascii) : bool := Re.in_range ("0", "9")%char c.

Definition is_underscore (c : ascii) : bool :=
  if ascii_dec c "_"%char then true else false.

Fixpoint all_chars (p : ascii -> bool) (s : string) : bool :=
  match s with
  | EmptyString => true
  | String c s' => p c && all_chars p s'
  end.

Definition head_char (c : ascii) : bool := is_letter c || is_underscore c.

Definition tail_char (c : ascii) : bool :=
  is_letter c || is_digit c || is_underscore c.

Definition spec_identifier (s : string) : bool :=
  match s with
  | EmptyString => false
  | String c s' =>
      head_char c && all_chars tail_char s' && (String.length s' <=? 62)%nat
  end.

(** What follows the repetition in [SQL_IDENTIFIER_RE]: the anchor [$]. *)
Definition at_end : nat -> string -> bool := Re.match_here [Re.Eol].

Fixpoint contains_char (p : ascii -> bool) (s : string) : bool :=
  match s with
  | EmptyString => false
  | String c s' => p c || contains_char p s'
  end.

(** Python's [str.isspace] on Latin-1: the characters 9-13, 28-32, 133, 160. *)
Definition is_whitespace (c : ascii) : bool :=
  let n := nat_of_ascii c in
  ((9 <=? n) && (n <=? 13) || (28 <=? n) && (n <=? 32)
   || (n =? 133) || (n =? 160))%nat.

Definition is_semicolon (c : ascii) : bool :=
  if ascii_dec c ";"%char then true else false.

(** The quote characters: ['] (39), the double quote (34) and the backquote
    (96). *)
Definition is_quote (c : ascii) : bool :=
  let n := nat_of_ascii c in ((n =? 39) || (n =? 34) || (n =? 96))%nat.

(** The string [a] followed by a newline, and 63 times [a] followed by a
    newline. *)
Definition a_newline : string := String "a" (String Re.newline "").

Definition long_newline : string :=
  string_of_list_ascii (repeat "a"%char 63 ++ [Re.newline]).

(** ** Configuration

    What [base.py] reads from outside: [get_public_role_name()] and
    [get_limit_set_calls()] of [django_tenants.utils], and the setting
    [PG_EXTRA_SEARCH_PATHS] (default [[]]). *)

Record Config : Type := {
  get_public_role_name : string;
  get_limit_set_calls : bool;
  EXTRA_SEARCH_PATHS : list string
}.

(** ** Tenants, cursors and the driver *)

(** A row of the tenant model ([get_tenant_model()]); the code reads its
    [role_name] only. *)
Record Tenant : Type := { pk : Z; row_role_name : string }.

(** What [DatabaseWrapper.tenant] holds: a row of the tenant model or a
    [FakeTenant]; both carry a [role_name]. *)
Inductive tenant_obj : Type :=
| ModelTenant (row : Tenant)
| FakeTenant (name : string).

Definition tenant_role_name (t : tenant_obj) : string :=
  match t with
  | ModelTenant row => row_role_name row
  | FakeTenant name => name
  end.

(** A cursor object, known by its identity. *)
Definition cursor : Type := nat.

(** Calls that leave [DatabaseWrapper] for the wrapped backend or the
    driver, in the order they are made. *)
Inductive event : Type :=
| SuperCursor (name : option string) (c : cursor)   (* super()._cursor(...) *)
| ConnectionCursor (c : cursor)                     (* self.connection.cursor() *)
| Execute (c : cursor) (sql : string)               (* c.execute(sql) *)
| CursorClose (c : cursor)                          (* c.close() *)
| SuperClose.                                       (* super().close() *)

(** What the backend answers during one call of [_cursor]: the cursor that
    [super()._cursor] returns, the cursor that [self.connection.cursor()]
    returns if it is asked for, and whether [execute] raises. *)
Record driver : Type := {
  super_cursor : cursor;
  connection_cursor : cursor;
  execute_raises : option exception
}.

(** ** [DatabaseWrapper] *)

Record DatabaseWrapper : Type := {
  search_path_set : option bool;        (* None, False or True *)
  tenant : option tenant_obj;
  role_name : option string;
  include_public_role : option bool;    (* None: the attribute is not set *)
  _previous_cursor : option cursor;
  settings_dict : gmap string string
}.

(** The value of a call, the wrapper after it and the driver calls made. *)
Record outcome (A : Type) : Type := {
  value : result A;
  state : DatabaseWrapper;
  trace : list event
}.
Arguments value {A} _.
Arguments state {A} _.
Arguments trace {A} _.

(** Truth value of a [str] or [None]. *)
Definition truthy (s : option string) : bool :=
  match s with
  | Some (String _ _) => true
  | Some EmptyString | None => false
  end.

(** Truth value of a [bool] or [None]. *)
Definition truthy_flag (b : option bool) : bool :=
  match b with
  | Some true => true
  | Some false | None => false
  end.

(** Attribute assignments [self.x = v]. *)
Definition assign_search_path_set (v : option bool) (w : DatabaseWrapper)
  : DatabaseWrapper :=
  {| search_path_set := v;
     tenant := tenant w;
     role_name := role_name w;
     include_public_role := include_public_role w;
     _previous_cursor := _previous_cursor w;
     settings_dict := settings_dict w |}.

Definition assign_tenant (v : option tenant_obj) (w : DatabaseWrapper)
  : DatabaseWrapper :=
  {| search_path_set := search_path_set w;
     tenant := v;
     role_name := role_name w;
     include_public_role := include_public_role w;
     _previous_cursor := _previous_cursor w;
     settings_dict := settings_dict w |}.

Definition assign_role_name (v : option string) (w : DatabaseWrapper)
  : DatabaseWrapper :=
  {| search_path_set := search_path_set w;
     tenant := tenant w;
     role_name := v;
     include_public_role := include_public_role w;
     _previous_cursor := _previous_cursor w;
     settings_dict := settings_dict w |}.

Definition assign_include_public_role (v : option bool) (w : DatabaseWrapper)
  : DatabaseWrapper :=
  {| search_path_set := search_path_set w;
     tenant := tenant w;
     role_name := role_name w;
     include_public_role := v;
     _previous_cursor := _previous_cursor w;
     settings_dict := settings_dict w |}.

Definition assign_previous_cursor (v : option cursor) (w : DatabaseWrapper)
  : DatabaseWrapper :=
  {| search_path_set := search_path_set w;
     tenant := tenant w;
     role_name := role_name w;
     include_public_role := include_public_role w;
     _previous_cursor := v;
     settings_dict := settings_dict w |}.

(** [self.settings_dict['ROLE'] = role_name] *)
Definition set_settings_role (w : DatabaseWrapper) (name : string)
  : DatabaseWrapper :=
  {| search_path_set := search_path_set w;
     tenant := tenant w;
     role_name := role_name w;
     include_public_role := include_public_role w;
     _previous_cursor := _previous_cursor w;
     settings_dict := <["ROLE" := name]> (settings_dict w) |}.

Definition set_tenant (w : DatabaseWrapper) (t : tenant_obj)
           (include_public : bool) : DatabaseWrapper :=
  let w := assign_tenant (Some t) w in
  let w := assign_role_name (Some (tenant_role_name t)) w in
  let w := assign_include_public_role (Some include_public) w in
  let w := set_settings_role w (tenant_role_name t) in
  assign_search_path_set (Some false) w.

Definition set_role (w : DatabaseWrapper) (name : string)
           (include_public : bool) : DatabaseWrapper :=
  let w := assign_tenant (Some (FakeTenant name)) w in
  let w := assign_role_name (Some name) w in
  let w := assign_include_public_role (Some include_public) w in
  let w := set_settings_role w name in
  assign_search_path_set (Some false) w.

Definition set_role_to_public (cfg : Config) (w : DatabaseWrapper)
  : DatabaseWrapper :=
  let w := assign_tenant (Some (FakeTenant (get_public_role_name cfg))) w in
  let w := assign_role_name (Some (get_public_role_name cfg)) w in
  let w := set_settings_role w (get_public_role_name cfg) in
  assign_search_path_set (Some false) w.

(** [__init__]: the wrapped backend's constructor stores the settings
    dictionary it is given; the class attribute [_previous_cursor] is
    [None]; the constructor assigns [include_public_role] nowhere. *)
Definition __init__ (cfg : Config) (settings : gmap string string)
  : DatabaseWrapper :=
  set_role_to_public cfg
    {| search_path_set := None;
       tenant := None;
       role_name := None;
       include_public_role := None;
       _previous_cursor := None;
       settings_dict := settings |}.

Definition close (w : DatabaseWrapper) : outcome unit :=
  {| value := Ok tt;
     state := assign_search_path_set (Some false) w;
     trace := [SuperClose] |}.

(** ['SET search_path = {0}'.format(','.join(search_paths))] *)
Definition directive (paths : list string) : string :=
  ("SET search_path = " ++ String.concat "," paths)%string.

(** The list [search_paths] that [_cursor] builds for the role name [r]:
    the [if]/[elif]/[else], then [search_paths.extend(EXTRA_SEARCH_PATHS)].
    Reading [self.include_public_role] before any assignment to it raises
    [AttributeError]. *)
Definition search_paths (cfg : Config) (w : DatabaseWrapper) (r : string)
  : result (list string) :=
  let public_role_name := get_public_role_name cfg in
  let chosen :=
    if String.eqb r public_role_name then Ok [public_role_name]
    else match include_public_role w with
         | None => Raise (AttributeError "include_public_role")
         | Some true => Ok [r; public_role_name]
         | Some false => Ok [r]
         end in
  match chosen with
  | inl l => Ok (l ++ EXTRA_SEARCH_PATHS cfg)
  | inr e => Raise e
  end.

(** The exceptions named by the [except] clause of [_cursor]. *)
Definition swallowed (e : exception) : bool :=
  match e with
  | DjangoDatabaseError | Psycopg2InternalError => true
  | _ => false
  end.

(** The test that guards the issuance of the directive. *)
Definition must_issue (cfg : Config) (w : DatabaseWrapper) (c : cursor)
  : bool :=
  negb (get_limit_set_calls cfg)
  || negb (truthy_flag (search_path_set w))
  || negb (bool_decide (_previous_cursor w = Some c)).

Definition _cursor (cfg : Config) (w : DatabaseWrapper)
           (name : option string) (d : driver) : outcome cursor :=
  let c := super_cursor d in
  let opened := [SuperCursor (if truthy name then name else None) c] in
  if must_issue cfg w c then
    let w := assign_previous_cursor (Some c) w in
    match role_name w with
    | None | Some EmptyString =>
        {| value := Raise (ImproperlyConfigured
                     "Database schema not set. Did you forget to call set_role() or set_tenant()?");
           state := w; trace := opened |}
    | Some r =>
        match _check_role_name r with
        | inr e => {| value := Raise e; state := w; trace := opened |}
        | inl _ =>
            match search_paths cfg w r with
            | inr e => {| value := Raise e; state := w; trace := opened |}
            | inl paths =>
                let cursor_for_search_path :=
                  if truthy name then connection_cursor d else c in
                let opened :=
                  if truthy name
                  then opened ++ [ConnectionCursor cursor_for_search_path]
                  else opened in
                let executed :=
                  opened ++ [Execute cursor_for_search_path (directive paths)] in
                let closed :=
                  if truthy name
                  then executed ++ [CursorClose cursor_for_search_path]
                  else executed in
                match execute_raises d with
                | Some e =>
                    if swallowed e
                    then {| value := Ok c;
                            state := assign_search_path_set (Some false) w;
                            trace := closed |}
                    else {| value := Raise e; state := w; trace := executed |}
                | None =>
                    {| value := Ok c;
                       state := assign_search_path_set (Some true) w;
                       trace := closed |}
                end
            end
        end
    end
  else {| value := Ok c; state := w; trace := opened |}.

(** The statements that a trace sends to the engine. *)
Definition statements (t : list event) : list string :=
  omap (fun e => match e with Execute _ sql => Some sql | _ => None end) t.

(** ** Runs and sample surroundings *)

(** Consecutive calls of [_cursor] on one wrapper: each call starts from the
    state that the call before left, also when that call raised. *)
Fixpoint run_cursor (cfg : Config) (w : DatabaseWrapper)
         (calls : list (option string * driver)) : list (outcome cursor) :=
  match calls with
  | [] => []
  | (name, d) :: rest =>
      let o := _cursor cfg w name d in
      o :: run_cursor cfg (state o) rest
  end.

(** The statements of each call of a run. *)
Definition issued (os : list (outcome cursor)) : list (list string) :=
  map (fun o => statements (trace o)) os.

(** What [_cursor] returns when the directive was sent: the cursor, unless
    [execute] raised something that the [except] clause does not name. *)
Definition value_after_execute (d : driver) : result cursor :=
  match execute_raises d with
  | None => Ok (super_cursor d)
  | Some e => if swallowed e then Ok (super_cursor d) else Raise e
  end.

(** The wrapper after the directive was sent. *)
Definition state_after_execute (d : driver) (w : DatabaseWrapper)
  : DatabaseWrapper :=
  let w := assign_previous_cursor (Some (super_cursor d)) w in
  match execute_raises d with
  | None => assign_search_path_set (Some true) w
  | Some e => if swallowed e then assign_search_path_set (Some false) w else w
  end.

(** Shared name [public], one extra search path. *)
Definition sample_config : Config :=
  {| get_public_role_name := "public";
     get_limit_set_calls := true;
     EXTRA_SEARCH_PATHS := ["shared_extra"] |}.


Definition sample_wrapper : DatabaseWrapper := __init__ sample_config ∅.

(** A driver that hands out cursor [c] and executes without error. *)
Definition driver_ok (c : cursor) : driver :=
  {| super_cursor := c; connection_cursor := S c; execute_raises := None |}.

(** A driver whose [execute] raises [e]. *)
Definition driver_raising (c : cursor) (e : exception) : driver :=
  {| super_cursor := c; connection_cursor := S c; execute_raises := Some e |}.

(** ** [management/commands/__init__.py]: [BaseTenantCommand] *)

Module Commands.

(** What a command does that is visible from outside: the lines it prints
    and the calls of [call_command], each with the tenant and the role name
    that the connection holds when the call is made. *)
Inductive cmd_event : Type :=
| Printed (line : string)
| PrintedSwitch (role command_name : string)
| CalledCommand (command_name : string)
                (active : option tenant_obj) (role : option string).

(** The surroundings of a command: the configuration, the rows that
    [get_tenant_model().objects.all()] yields, in that order, the wrapped
    command behind [call_command] (it may raise and may touch the
    connection), and the attributes that [connection] inherits from the
    wrapped backend, as far as they are callable without arguments. *)
Record World : Type := {
  config : Config;
  objects_all : list Tenant;
  call_command : string -> DatabaseWrapper -> result unit * DatabaseWrapper;
  inherited : string -> option (DatabaseWrapper -> DatabaseWrapper)
}.

Record Options : Type := {
  opt_role_name : option string;     (* options['role_name'] *)
  opt_skip_public : bool;            (* options['skip_public'] *)
  opt_verbosity : Z                  (* options.get('verbosity') *)
}.

(** Computations on the connection that may raise and that leave a log. *)
Definition M (A : Type) : Type :=
  DatabaseWrapper -> result A * DatabaseWrapper * list cmd_event.

Definition ret {A} (a : A) : M A := fun w => (Ok a, w, []).

Definition raise {A} (e : exception) : M A := fun w => (Raise e, w, []).

Definition bind {A B} (m : M A) (f : A -> M B) : M B :=
  fun w =>
    match m w with
    | (inl a, w1, log1) =>
        match f a w1 with
        | (r, w2, log2) => (r, w2, log1 ++ log2)
        end
    | (inr e, w1, log1) => (Raise e, w1, log1)
    end.

Notation "x <- m ;; k" := (bind m (fun x => k))
  (at level 100, m at next level, right associativity).
Notation "m ;;; k" := (bind m (fun _ => k))
  (at level 100, right associativity).

Definition emit (e : cmd_event) : M unit := fun w => (Ok tt, w, [e]).

Definition update (f : DatabaseWrapper -> DatabaseWrapper) : M unit :=
  fun w => (Ok tt, f w, []).

Definition when (b : bool) (m : M unit) : M unit := if b then m else ret tt.

(** [for x in l: body(x)] *)
Fixpoint for_each {A} (l : list A) (body : A -> M unit) : M unit :=
  match l with
  | [] => ret tt
  | x :: l' => body x ;;; for_each l' body
  end.

(** The names that the class body of [DatabaseWrapper] binds. *)
Definition DatabaseWrapper_attrs : list string :=
  ["include_public_schema"; "_previous_cursor"; "__init__"; "close";
   "set_tenant"; "set_role"; "set_role_to_public"; "set_settings_role";
   "get_role"; "get_tenant"; "_cursor"].

(** [connection.attr()]: the attribute is looked up in [DatabaseWrapper]
    first, then in the wrapped backend; a name bound in neither raises
    [AttributeError].  Of the names of [DatabaseWrapper], the two that take
    no argument are callable this way. *)
Definition connection_call (W : World) (attr : string) : M unit :=
  if String.eqb attr "set_role_to_public"
  then update (set_role_to_public (config W))
  else if String.eqb attr "close"
  then update (fun w => state (close w))
  else if bool_decide (attr ∈ DatabaseWrapper_attrs)
  then raise (OtherException "TypeError")
  else match inherited W attr with
       | Some f => update f
       | None => raise (AttributeError attr)
       end.

(** [get_tenant_model().objects.get(role_name=name)] *)
Definition objects_get (W : World) (name : string) : M Tenant :=
  match filter (fun t => row_role_name t = name) (objects_all W) with
  | [] => raise DoesNotExist
  | [t] => ret t
  | _ :: _ :: _ => raise MultipleObjectsReturned
  end.

Definition execute_command (W : World) (opts : Options) (t : Tenant)
           (command_name : string) : M unit :=
  when (1 <=? opt_verbosity opts)%Z
       (emit (Printed "") ;;;
        emit (PrintedSwitch (row_role_name t) command_name)) ;;;
  update (fun w => set_tenant w (ModelTenant t) true) ;;;
  (fun w =>
     match call_command W command_name w with
     | (r, w') => (r, w', [CalledCommand command_name (tenant w) (role_name w)])
     end).

Definition handle (W : World) (COMMAND_NAME : string) (opts : Options)
  : M unit :=
  if truthy (opt_role_name opts)
  then
    connection_call W "set_schema_to_public" ;;;
    t <- objects_get W (default "" (opt_role_name opts)) ;;
    execute_command W opts t COMMAND_NAME
  else
    for_each (objects_all W)
      (fun t =>
         when (negb (opt_skip_public opts
                     && String.eqb (row_role_name t)
                                   (get_public_role_name (config W))))
              (execute_command W opts t COMMAND_NAME)).

(** The tenants for which the wrapped command was called. *)
Definition called_for (log : list cmd_event) : list (option tenant_obj) :=
  omap (fun e => match e with
                 | CalledCommand _ active _ => Some active
                 | _ => None
                 end) log.

End Commands.

(** The wrapped command raises nothing. *)
Definition command_succeeds (W : Commands.World) : Prop :=
  forall name w, (Commands.call_command W name w).1 = Ok tt.

(** A directory of three tenants, a command that does nothing, and a
    backend that binds no further name. *)
Definition tenant_public : Tenant := {| pk := 1; row_role_name := "public" |}.
Definition tenant_acme : Tenant := {| pk := 2; row_role_name := "acme" |}.
Definition tenant_globex : Tenant := {| pk := 3; row_role_name := "globex" |}.

Definition sample_world (rows : list Tenant) : Commands.World :=
  {| Commands.config := sample_config;
     Commands.objects_all := rows;
     Commands.call_command := fun _ w => (Ok tt, w);
     Commands.inherited := fun _ => None |}.

Definition options_all (skip : bool) : Commands.Options :=
  {| Commands.opt_role_name := None;
     Commands.opt_skip_public := skip;
     Commands.opt_verbosity := 1 |}.

Definition options_one (name : string) : Commands.Options :=
  {| Commands.opt_role_name := Some name;
     Commands.opt_skip_public := false;
     Commands.opt_verbosity := 1 |}.

(** ** The deprecated getters and the calls of the public interface *)

(** [get_role] and [get_tenant] warn and return the attribute. *)
Definition get_role (w : DatabaseWrapper) : option string * string :=
  (role_name w,
   "connection.get_role() is deprecated, use connection.role_name instead.").

Definition get_tenant (w : DatabaseWrapper) : option tenant_obj * string :=
  (tenant w,
   "connection.get_tenant() is deprecated, use connection.tenant instead.").

(** One call of the interface of [DatabaseWrapper]. *)
Inductive call : Type :=
| CallSetTenant (t : tenant_obj) (include_public : bool)
| CallSetRole (name : string) (include_public : bool)
| CallSetRoleToPublic
| CallClose
| CallCursor (name : option string) (d : driver).

Definition after_call (cfg : Config) (w : DatabaseWrapper) (c : call)
  : DatabaseWrapper :=
  match c with
  | CallSetTenant t inc => set_tenant w t inc
  | CallSetRole name inc => set_role w name inc
  | CallSetRoleToPublic => set_role_to_public cfg w
  | CallClose => state (close w)
  | CallCursor name d => state (_cursor cfg w name d)
  end.

(** The wrapper after the constructor and a sequence of calls. *)
Definition after_calls (cfg : Config) (settings : gmap string string)
           (cs : list call) : DatabaseWrapper :=
  fold_left (after_call cfg) cs (__init__ cfg settings).

(** What the interface keeps true: a role is selected, the tenant object
    and the [ROLE] setting carry its name, and the include-public flag
    is set unless the role is the public one. *)
Definition consistent (cfg : Config) (w : DatabaseWrapper) : Prop :=
  exists r t,
    role_name w = Some r
    /\ tenant w = Some t
    /\ tenant_role_name t = r
    /\ settings_dict w !! "ROLE" = Some r
    /\ (r = get_public_role_name cfg \/ is_Some (include_public_role w)).

(** ** [management/commands/__init__.py]: the other commands *)

Module Sync.

(** The options that [SyncCommon.handle] reads. *)
Record Options : Type := {
  opt_tenant : bool;                (* --tenant *)
  opt_shared : bool;                (* --shared *)
  opt_role_name : option string;    (* --schema *)
  opt_executor : option string      (* --executor *)
}.

(** The settings that it reads: [INSTALLED_APPS], and [TENANT_APPS] and
    [SHARED_APPS] where they exist. *)
Record Settings : Type := {
  INSTALLED_APPS : list string;
  TENANT_APPS : option (list string);
  SHARED_APPS : option (list string)
}.

(** The attributes that [handle] assigns; [tenant_apps] and [shared_apps]
    stay unassigned without the setting. *)
Record SyncCommon : Type := {
  sync_tenant : bool;
  sync_public : bool;
  role_name : option string;
  executor : option string;
  installed_apps : list string;
  tenant_apps : option (list string);
  shared_apps : option (list string)
}.

Inductive error : Type :=
| CommandError (msg : string).

Definition handle (cfg : Config) (settings : Settings) (options : Options)
  : SyncCommon + error :=
  let sync_tenant := opt_tenant options in
  let sync_public := opt_shared options in
  let role_name := opt_role_name options in
  let flags :=
    if truthy role_name then
      if sync_public
      then inr (CommandError
                  "schema should only be used with the --tenant switch.")
      else if String.eqb (default "" role_name) (get_public_role_name cfg)
      then inl (sync_tenant, true)
      else inl (true, sync_public)
    else if negb sync_public && negb sync_tenant
    then inl (true, true)
    else inl (sync_tenant, sync_public) in
  match flags with
  | inr e => inr e
  | inl (sync_tenant, sync_public) =>
      inl {| sync_tenant := sync_tenant;
             sync_public := sync_public;
             role_name := role_name;
             executor := opt_executor options;
             installed_apps := INSTALLED_APPS settings;
             tenant_apps := TENANT_APPS settings;
             shared_apps := SHARED_APPS settings |}
  end.

End Sync.

Module Interactive.

(** What the tenant chooser does at the terminal. *)
Inductive io : Type :=
| Prompted (text : string)     (* input(text) *)
| Listed (text : string).      (* print(text) *)

Inductive error : Type :=
| CommandError (msg : string)
| EOFError                     (* input() at the end of the input *)
| Raised (e : exception).  (* raised by objects.get or by the command *)

Definition no_tenants : string :=
  "There are no tenants in the system.
To learn how create a tenant, see:
https://django-tenants.readthedocs.org/en/latest/use.html#creating-a-tenant".

Definition prompt_text : string :=
  "Enter Tenant Schema ('?' to list schemas): ".

Definition role_names (rows : list Tenant) : list string :=
  map row_role_name rows.

(** ['\n'.join(["%s" % t.role_name for t in all_tenants])] *)
Definition listing (rows : list Tenant) : string :=
  String.concat (String Re.newline "") (role_names rows).

(** The [while True] loop over the lines that the user types: a [?] prints
    the list and asks again, any other line is the answer; the lines that
    are left are returned with it. *)
Fixpoint ask (rows : list Tenant) (lines : list string)
  : (string + error) * list string * list io :=
  match lines with
  | [] => (inr EOFError, [], [Prompted prompt_text])
  | line :: rest =>
      if String.eqb line "?"
      then match ask rows rest with
           | (r, rest', log) =>
               (r, rest', Prompted prompt_text :: Listed (listing rows) :: log)
           end
      else (inl line, rest, [Prompted prompt_text])
  end.

(** [objects.get(role_name=name)] on the rows of the directory. *)
Definition get_row (rows : list Tenant) (name : string) : Tenant + error :=
  match filter (fun t => row_role_name t = name) rows with
  | [] => inr (Raised DoesNotExist)
  | [t] => inl t
  | _ :: _ :: _ => inr (Raised MultipleObjectsReturned)
  end.

Definition get_tenant_from_options_or_interactive
           (rows : list Tenant) (opt_role_name : option string)
           (lines : list string)
  : (Tenant + error) * list string * list io :=
  match rows with
  | [] => (inr (CommandError no_tenants), lines, [])
  | _ :: _ =>
      let chosen :=
        if truthy opt_role_name
        then (inl (default "" opt_role_name), lines, [])
        else ask rows lines in
      match chosen with
      | (inr e, rest, log) => (inr e, rest, log)
      | (inl tenant_schema, rest, log) =>
          if bool_decide (tenant_schema ∈ role_names rows)
          then (get_row rows tenant_schema, rest, log)
          else (inr (CommandError
                       ("Invalid tenant schema, '" ++ tenant_schema ++ "'")%string),
                rest, log)
      end
  end.

(** [TenantWrappedCommand.handle]: choose the tenant, select it on the
    connection, run the wrapped command ([command_instance.execute]). *)
Definition handle
           (execute : DatabaseWrapper -> result unit * DatabaseWrapper)
           (rows : list Tenant) (opt_role_name : option string)
           (lines : list string) (w : DatabaseWrapper)
  : (unit + error) * DatabaseWrapper * list io :=
  match get_tenant_from_options_or_interactive rows opt_role_name lines with
  | (inr e, _, log) => (inr e, w, log)
  | (inl t, _, log) =>
      let w := set_tenant w (ModelTenant t) true in
      match execute w with
      | (inl _, w') => (inl tt, w', log)
      | (inr e, w') => (inr (Raised e), w', log)
      end
  end.

End Interactive.

(** The sample configuration with the limit on [SET search_path] off. *)
Definition sample_config_unlimited : Config :=
  {| get_public_role_name := "public";
     get_limit_set_calls := false;
     EXTRA_SEARCH_PATHS := ["shared_extra"] |}.

(** The list that [_cursor] starts from, before the extra paths. *)
Definition chosen_paths (cfg : Config) (r : string) (include_public : bool)
  : list string :=
  if String.eqb r (get_public_role_name cfg) then [get_public_role_name cfg]
  else if include_public then [r; get_public_role_name cfg]
  else [r].

(** The test of the loop of [BaseTenantCommand.handle]:
    [options['skip_public'] and tenant.role_name == get_public_role_name()];
    the loop runs the command for the tenants on which it is false. *)
Definition skipped (W : Commands.World) (opts : Commands.Options)
           (t : Tenant) : bool :=
  Commands.opt_skip_public opts
  && String.eqb (row_role_name t) (get_public_role_name (Commands.config W)).

Definition visited (W : Commands.World) (opts : Commands.Options)
           (rows : list Tenant) : list Tenant :=
  List.filter (fun t => negb (skipped W opts t)) rows.

(** A command that raises whenever the role [acme] is selected. *)
Definition sample_world_failing (rows : list Tenant) : Commands.World :=
  {| Commands.config := sample_config;
     Commands.objects_all := rows;
     Commands.call_command :=
       fun _ w =>
         if bool_decide (role_name w = Some "acme")
         then (Raise (OtherException "failed"), w)
         else (Ok tt, w);
     Commands.inherited := fun _ => None |}.

(** The wrapped command of [TenantWrappedCommand] that does nothing. *)
Definition execute_nothing (w : DatabaseWrapper)
  : result unit * DatabaseWrapper := (Ok tt, w).

(** Settings without [TENANT_APPS] and [SHARED_APPS], and the options of
    [SyncCommon] without an executor. *)
Definition sample_sync_settings : Sync.Settings :=
  {| Sync.INSTALLED_APPS := [];
     Sync.TENANT_APPS := None;
     Sync.SHARED_APPS := None |}.

Definition sync_options (tenant shared : bool) (name : option string)
  : Sync.Options :=
  {| Sync.opt_tenant := tenant;
     Sync.opt_shared := shared;
     Sync.opt_role_name := name;
     Sync.opt_executor := None |}.

(** * Properties *)

(** ** The identifier validator *)

Section Identifier.

Local Open Scope nat_scope.

Lemma in_class_head c : Re.in_class cls_head c = head_char c.
Proof.
  destruct c as [[] [] [] [] [] [] [] []]; vm_compute; reflexivity.
Qed.

Lemma in_class_tail c : Re.in_class cls_tail c = tail_char c.
Proof.
  destruct c as [[] [] [] [] [] [] [] []]; vm_compute; reflexivity.
Qed.

Lemma newline_not_tail : tail_char Re.newline = false.
Proof. reflexivity. Qed.

Lemma at_end_eol pos s : at_end pos s = Re.at_eol s.
Proof. unfold at_end; simpl. apply andb_true_r. Qed.

Lemma append_cons c s t : (String c s ++ t)%string = String c (s ++ t)%string.
Proof. reflexivity. Qed.

Lemma append_empty_r s : (s ++ "")%string = s.
Proof. induction s as [|c s IH]; [reflexivity|]. rewrite append_cons, IH. reflexivity. Qed.

(** A run of at most [n] class characters up to the end is accepted. *)
Lemma rep_all_chars n : forall s pos,
  all_chars tail_char s = true -> String.length s <= n ->
  Re.rep cls_tail at_end 0 n pos s = true.
Proof.
  induction n as [|n IH]; intros s pos Hall Hlen.
  - destruct s as [|c s]; simpl in Hlen; [reflexivity | lia].
  - destruct s as [|c s]; [reflexivity|].
    simpl in Hall, Hlen. apply andb_prop in Hall as [Hc Hs].
    cbn [Re.rep]. rewrite in_class_tail, Hc.
    rewrite IH by (auto; lia). reflexivity.
Qed.

(** The same run followed by one newline that ends the string. *)
Lemma rep_all_chars_newline n : forall s pos,
  all_chars tail_char s = true -> String.length s <= n ->
  Re.rep cls_tail at_end 0 n pos (s ++ String Re.newline "")%string = true.
Proof.
  induction n as [|n IH]; intros s pos Hall Hlen.
  - destruct s as [|c s]; simpl in Hlen; [reflexivity | lia].
  - destruct s as [|c s]; [reflexivity|].
    simpl in Hall, Hlen. apply andb_prop in Hall as [Hc Hs].
    rewrite append_cons. cbn [Re.rep]. rewrite in_class_tail, Hc.
    rewrite IH by (auto; lia). reflexivity.
Qed.

Lemma at_eol_cases s :
  Re.at_eol s = true -> s = ""%string \/ s = String Re.newline "".
Proof.
  destruct s as [|c [|d s]]; simpl; auto; [|discriminate].
  destruct (ascii_dec c Re.newline); [subst; auto | discriminate].
Qed.

(** What the repetition accepts: class characters, [n] at most, then the end
    of the string or one final newline. *)
Lemma rep_inv n : forall s pos,
  Re.rep cls_tail at_end 0 n pos s = true ->
  exists pre rest,
    s = (pre ++ rest)%string /\ all_chars tail_char pre = true
    /\ String.length pre <= n
    /\ (rest = ""%string \/ rest = String Re.newline "").
Proof.
  induction n as [|n IH]; intros s pos H.
  - cbn [Re.rep] in H. rewrite at_end_eol in H.
    exists ""%string, s. repeat split; auto using at_eol_cases.
  - assert (Hstop : Re.at_eol s = true ->
              exists pre rest,
                s = (pre ++ rest)%string /\ all_chars tail_char pre = true
                /\ String.length pre <= S n
                /\ (rest = ""%string \/ rest = String Re.newline "")).
    { intros He. exists ""%string, s.
      repeat split; simpl; auto using at_eol_cases; lia. }
    destruct s as [|c s]; cbn [Re.rep] in H.
    + apply Hstop. reflexivity.
    + rewrite in_class_tail, at_end_eol in H.
      destruct (tail_char c) eqn:Hc; [|auto].
      apply orb_prop in H as [H|H]; [|auto].
      apply IH in H as (pre & rest & -> & Hall & Hlen & Hrest).
      exists (String c pre), rest. rewrite append_cons. simpl. rewrite Hc, Hall.
      repeat split; auto; lia.
Qed.

Lemma match_here_bol p pos s :
  Re.match_here (Re.Bol :: p) pos s = (pos =? 0) && Re.match_here p pos s.
Proof. reflexivity. Qed.

Lemma match_here_rep cls lo hi p pos s :
  Re.match_here (Re.Rep cls lo hi :: p) pos s
  = Re.rep cls (Re.match_here p) lo hi pos s.
Proof. reflexivity. Qed.

(** A single class: one character of the class, then the continuation. *)
Lemma rep_one cls k pos s :
  Re.rep cls k 1 1 pos s
  = match s with
    | String c s' => Re.in_class cls c && k (S pos) s'
    | EmptyString => false
    end.
Proof.
  destruct s as [|c s]; [reflexivity|].
  cbn [Re.rep Nat.pred]. destruct (Re.in_class cls c); [|reflexivity].
  rewrite orb_false_r. reflexivity.
Qed.

(** [_is_valid_identifier] unfolded on a non-empty string. *)
Lemma is_valid_identifier_cons c s :
  _is_valid_identifier (String c s)
  = (head_char c) && Re.rep cls_tail at_end 0 62 1 s.
Proof.
  unfold _is_valid_identifier, Re.matches, SQL_IDENTIFIER_RE.
  rewrite match_here_bol, match_here_rep, rep_one, match_here_rep.
  rewrite in_class_head. reflexivity.
Qed.

(** Every string that the rule of the specification accepts is accepted. *)
Lemma is_valid_identifier_complete s :
  spec_identifier s = true -> _is_valid_identifier s = true.
Proof.
  destruct s as [|c s]; [discriminate|].
  unfold spec_identifier. intros H.
  apply andb_prop in H as [H Hlen]. apply andb_prop in H as [Hc Hall].
  rewrite is_valid_identifier_cons, Hc, andb_true_l.
  apply rep_all_chars; [exact Hall|]. apply Nat.leb_le, Hlen.
Qed.

(** The strings that [_is_valid_identifier] accepts are those of the rule
    and those of the rule followed by one newline. *)
Lemma is_valid_identifier_char s :
  _is_valid_identifier s = true <->
  spec_identifier s = true
  \/ exists s0, s = (s0 ++ String Re.newline "")%string
                /\ spec_identifier s0 = true.
Proof.
  split.
  - destruct s as [|c s]; [discriminate|].
    rewrite is_valid_identifier_cons. intros H.
    apply andb_prop in H as [Hc H].
    apply rep_inv in H as (pre & rest & -> & Hall & Hlen & [->| ->]).
    + left. unfold spec_identifier.
      rewrite append_empty_r, Hc, Hall. simpl. apply Nat.leb_le, Hlen.
    + right. exists (String c pre). split; [reflexivity|].
      unfold spec_identifier.
      rewrite Hc, Hall. simpl. apply Nat.leb_le, Hlen.
  - intros [H | (s0 & -> & H)]; [apply is_valid_identifier_complete, H|].
    destruct s0 as [|c s0]; [discriminate|].
    unfold spec_identifier in H.
    apply andb_prop in H as [H Hlen]. apply andb_prop in H as [Hc Hall].
    rewrite append_cons.
    rewrite is_valid_identifier_cons, Hc, andb_true_l.
    apply rep_all_chars_newline; [exact Hall|]. apply Nat.leb_le, Hlen.
Qed.

End Identifier.

Section IdentifierCorollaries.

Local Open Scope nat_scope.

Lemma length_append s t :
  String.length (s ++ t)%string = String.length s + String.length t.
Proof.
  induction s as [|c s IH]; [reflexivity|].
  rewrite append_cons. simpl. rewrite IH. reflexivity.
Qed.

Lemma contains_char_append p s t :
  contains_char p (s ++ t)%string = contains_char p s || contains_char p t.
Proof.
  induction s as [|c s IH]; [reflexivity|].
  rewrite append_cons. simpl. rewrite IH. apply orb_assoc.
Qed.

Lemma all_chars_no_other p q s :
  (forall c, p c = true -> q c = false) ->
  all_chars p s = true -> contains_char q s = false.
Proof.
  intros Hpq. induction s as [|c s IH]; [reflexivity|].
  simpl. intros H. apply andb_prop in H as [Hc Hs].
  rewrite (Hpq c Hc), (IH Hs). reflexivity.
Qed.

Lemma spec_identifier_length s :
  spec_identifier s = true -> String.length s <= 63.
Proof.
  destruct s as [|c s]; [discriminate|]. unfold spec_identifier.
  intros H. apply andb_prop in H as [_ H]. apply Nat.leb_le in H.
  simpl. lia.
Qed.

Lemma spec_identifier_chars q s :
  (forall c, tail_char c = true -> q c = false) ->
  spec_identifier s = true -> contains_char q s = false.
Proof.
  intros Hq. destruct s as [|c s]; [discriminate|]. unfold spec_identifier.
  intros H. apply andb_prop in H as [H _]. apply andb_prop in H as [Hc Hs].
  simpl. rewrite (all_chars_no_other tail_char q s Hq Hs), orb_false_r.
  apply Hq. unfold head_char in Hc. unfold tail_char.
  destruct (is_letter c); [reflexivity|]. simpl in *. rewrite Hc.
  apply orb_true_r.
Qed.

Lemma tail_char_not_separator c :
  tail_char c = true -> is_semicolon c || is_quote c = false.
Proof.
  destruct c as [[] [] [] [] [] [] [] []]; vm_compute; congruence.
Qed.

Lemma tail_char_not_whitespace c :
  tail_char c = true -> is_whitespace c = false.
Proof.
  destruct c as [[] [] [] [] [] [] [] []]; vm_compute; congruence.
Qed.

(** No accepted string holds a semicolon or a quote character. *)
Lemma is_valid_identifier_no_separator s :
  contains_char (fun c => is_semicolon c || is_quote c) s = true ->
  _is_valid_identifier s = false.
Proof.
  intros Hc. destruct (_is_valid_identifier s) eqn:Hv; [|reflexivity].
  apply is_valid_identifier_char in Hv as [Hv | (s0 & -> & Hv)].
  - rewrite (spec_identifier_chars _ s tail_char_not_separator Hv) in Hc.
    discriminate.
  - rewrite contains_char_append in Hc.
    rewrite (spec_identifier_chars _ s0 tail_char_not_separator Hv) in Hc.
    discriminate.
Qed.

(** No accepted string is longer than 64 characters: 63 of the identifier
    and the newline that [$] lets through. *)
Lemma is_valid_identifier_length s :
  _is_valid_identifier s = true -> String.length s <= 64.
Proof.
  intros Hv. apply is_valid_identifier_char in Hv as [Hv | (s0 & -> & Hv)].
  - apply spec_identifier_length in Hv. lia.
  - apply spec_identifier_length in Hv. rewrite length_append. simpl. lia.
Qed.

(** White space is rejected everywhere but in the last position, where a
    newline is let through. *)
Lemma is_valid_identifier_whitespace s :
  _is_valid_identifier s = true ->
  contains_char is_whitespace s = true ->
  exists s0, s = (s0 ++ String Re.newline "")%string
             /\ spec_identifier s0 = true.
Proof.
  intros Hv Hw. apply is_valid_identifier_char in Hv as [Hv | Hv]; [|exact Hv].
  rewrite (spec_identifier_chars _ s tail_char_not_whitespace Hv) in Hw.
  discriminate.
Qed.

End IdentifierCorollaries.

(** C3, at the inputs where the code leaves the claim: a string that holds
    white space (a final newline), and one of 64 characters, are both
    accepted by [_is_valid_identifier]. *)
Theorem is_valid_identifier_trailing_newline :
  contains_char is_whitespace a_newline = true
  /\ _is_valid_identifier a_newline = true
  /\ String.length long_newline = 64%nat
  /\ _is_valid_identifier long_newline = true.
Proof. repeat split; vm_compute; reflexivity. Qed.

(** ** The role-name validator *)

(** C7: role-name validation lets every string through:
    [_is_valid_role_name] answers [True] and [_check_role_name] raises
    nothing, whatever the name. *)
Theorem role_name_validation_permissive (name : string) :
  _is_valid_role_name name = true /\ _check_role_name name = Ok tt.
Proof. split; reflexivity. Qed.

(** ** The selection operations and the settings dictionary *)

Section Selection.

Variable cfg : Config.
Variable w : DatabaseWrapper.

Lemma set_tenant_state t inc :
  role_name (set_tenant w t inc) = Some (tenant_role_name t)
  /\ tenant (set_tenant w t inc) = Some t
  /\ include_public_role (set_tenant w t inc) = Some inc
  /\ search_path_set (set_tenant w t inc) = Some false
  /\ _previous_cursor (set_tenant w t inc) = _previous_cursor w.
Proof. repeat split. Qed.

Lemma set_role_state r inc :
  role_name (set_role w r inc) = Some r
  /\ tenant (set_role w r inc) = Some (FakeTenant r)
  /\ include_public_role (set_role w r inc) = Some inc
  /\ search_path_set (set_role w r inc) = Some false
  /\ _previous_cursor (set_role w r inc) = _previous_cursor w.
Proof. repeat split. Qed.

Lemma set_role_to_public_state :
  role_name (set_role_to_public cfg w) = Some (get_public_role_name cfg)
  /\ tenant (set_role_to_public cfg w)
     = Some (FakeTenant (get_public_role_name cfg))
  /\ include_public_role (set_role_to_public cfg w) = include_public_role w
  /\ search_path_set (set_role_to_public cfg w) = Some false
  /\ _previous_cursor (set_role_to_public cfg w) = _previous_cursor w.
Proof. repeat split. Qed.

End Selection.

(** C10: [set_tenant], [set_role] and [set_role_to_public] store the role
    name they select under the key [ROLE] of the settings dictionary, and
    the dictionary without that key is what it was. *)
Theorem selection_writes_role_key
        (cfg : Config) (w : DatabaseWrapper)
        (t : tenant_obj) (r : string) (inc : bool) :
  (role_name (set_tenant w t inc) = Some (tenant_role_name t)
   /\ settings_dict (set_tenant w t inc)
      = <["ROLE" := tenant_role_name t]> (settings_dict w)
   /\ delete "ROLE" (settings_dict (set_tenant w t inc))
      = delete "ROLE" (settings_dict w))
  /\ (role_name (set_role w r inc) = Some r
      /\ settings_dict (set_role w r inc) = <["ROLE" := r]> (settings_dict w)
      /\ delete "ROLE" (settings_dict (set_role w r inc))
         = delete "ROLE" (settings_dict w))
  /\ (role_name (set_role_to_public cfg w) = Some (get_public_role_name cfg)
      /\ settings_dict (set_role_to_public cfg w)
         = <["ROLE" := get_public_role_name cfg]> (settings_dict w)
      /\ delete "ROLE" (settings_dict (set_role_to_public cfg w))
         = delete "ROLE" (settings_dict w)).
Proof.
  repeat split; cbn [set_tenant set_role set_role_to_public settings_dict
    assign_search_path_set set_settings_role assign_tenant assign_role_name
    assign_include_public_role]; apply delete_insert_eq.
Qed.

(** Every other key reads as before. *)
Lemma selection_other_keys
      (cfg : Config) (w : DatabaseWrapper)
      (t : tenant_obj) (r : string) (inc : bool) (k : string) :
  k <> "ROLE" ->
  settings_dict (set_tenant w t inc) !! k = settings_dict w !! k
  /\ settings_dict (set_role w r inc) !! k = settings_dict w !! k
  /\ settings_dict (set_role_to_public cfg w) !! k = settings_dict w !! k.
Proof.
  intros Hk. repeat split; cbn; apply lookup_insert_ne; congruence.
Qed.

(** ** [_cursor] *)

Section Cursor.

Variable cfg : Config.

Lemma truthy_Some r : r <> "" -> truthy (Some r) = true.
Proof. destruct r; [congruence | reflexivity]. Qed.

Lemma statements_app t1 t2 :
  statements (t1 ++ t2) = statements t1 ++ statements t2.
Proof. unfold statements. apply omap_app. Qed.

(** The selection just made, or a closed connection, leaves the cache
    stale: the next call must send the directive. *)
Lemma must_issue_stale w c :
  truthy_flag (search_path_set w) = false -> must_issue cfg w c = true.
Proof.
  intros H. unfold must_issue. rewrite H.
  destruct (get_limit_set_calls cfg); reflexivity.
Qed.

(** A cursor other than the recorded one forces the directive. *)
Lemma must_issue_other_cursor w c c' :
  _previous_cursor w = Some c' -> c <> c' -> must_issue cfg w c = true.
Proof.
  intros Hp Hc. unfold must_issue. rewrite Hp.
  rewrite bool_decide_eq_false_2 by congruence. apply orb_true_r.
Qed.

(** With the limit on, an applied directive and the recorded cursor, none
    is sent. *)
Lemma must_issue_cached w c :
  get_limit_set_calls cfg = true ->
  search_path_set w = Some true -> _previous_cursor w = Some c ->
  must_issue cfg w c = false.
Proof.
  intros Hl Hs Hp. unfold must_issue. rewrite Hl, Hs, Hp.
  rewrite bool_decide_eq_true_2 by reflexivity. reflexivity.
Qed.

Lemma search_paths_previous_cursor w v r :
  search_paths cfg (assign_previous_cursor v w) r = search_paths cfg w r.
Proof. reflexivity. Qed.

Lemma search_paths_search_path_set w v r :
  search_paths cfg (assign_search_path_set v w) r = search_paths cfg w r.
Proof. reflexivity. Qed.

(** The call that sends the directive. *)
Lemma cursor_issues w name d r paths :
  must_issue cfg w (super_cursor d) = true ->
  role_name w = Some r -> r <> "" ->
  search_paths cfg w r = Ok paths ->
  statements (trace (_cursor cfg w name d)) = [directive paths]
  /\ value (_cursor cfg w name d) = value_after_execute d
  /\ state (_cursor cfg w name d) = state_after_execute d w.
Proof.
  intros Hm Hr Hne Hp. unfold _cursor. rewrite Hm.
  cbn [role_name assign_previous_cursor]. rewrite Hr.
  destruct r as [|a r]; [congruence|].
  cbn [_check_role_name _is_valid_role_name negb Ok].
  rewrite search_paths_previous_cursor, Hp. unfold Ok.
  unfold value_after_execute, state_after_execute.
  destruct (execute_raises d) as [e|]; [destruct (swallowed e)|];
    destruct (truthy name); cbn [trace value state];
    repeat rewrite statements_app; repeat split.
Qed.

(** The call that finds the directive applied. *)
Lemma cursor_cached w name d :
  must_issue cfg w (super_cursor d) = false ->
  statements (trace (_cursor cfg w name d)) = []
  /\ value (_cursor cfg w name d) = Ok (super_cursor d)
  /\ state (_cursor cfg w name d) = w.
Proof.
  intros Hm. unfold _cursor. rewrite Hm. repeat split.
Qed.

(** No role name: the call raises before anything is sent. *)
Lemma cursor_not_configured w name d :
  must_issue cfg w (super_cursor d) = true ->
  truthy (role_name w) = false ->
  statements (trace (_cursor cfg w name d)) = []
  /\ exists msg,
       value (_cursor cfg w name d) = Raise (ImproperlyConfigured msg).
Proof.
  intros Hm Hr. unfold _cursor. rewrite Hm.
  cbn [role_name assign_previous_cursor].
  destruct (role_name w) as [[|a r]|]; try discriminate;
    (split; [reflexivity | eexists; reflexivity]).
Qed.


(** The flag missing: the call raises before anything is sent. *)
Lemma cursor_search_paths_raise w name d r e :
  must_issue cfg w (super_cursor d) = true ->
  role_name w = Some r -> r <> "" ->
  search_paths cfg w r = Raise e ->
  statements (trace (_cursor cfg w name d)) = []
  /\ value (_cursor cfg w name d) = Raise e.
Proof.
  intros Hm Hr Hne Hp. unfold _cursor. rewrite Hm.
  cbn [role_name assign_previous_cursor]. rewrite Hr.
  destruct r as [|a r]; [congruence|].
  cbn [_check_role_name _is_valid_role_name negb Ok].
  rewrite search_paths_previous_cursor, Hp. split; reflexivity.
Qed.


(** Whatever happens, the cursor of the call is the recorded one after it. *)
Lemma cursor_records w name d :
  _previous_cursor w = Some (super_cursor d)
  \/ must_issue cfg w (super_cursor d) = true ->
  _previous_cursor (state (_cursor cfg w name d)) = Some (super_cursor d).
Proof.
  intros H. unfold _cursor.
  destruct (must_issue cfg w (super_cursor d)) eqn:Hm.
  - cbn [role_name assign_previous_cursor].
    destruct (role_name w) as [[|a r]|]; try reflexivity.
    cbn [_check_role_name _is_valid_role_name negb Ok].
    rewrite search_paths_previous_cursor.
    destruct (search_paths cfg w (String a r)); [|reflexivity].
    destruct (execute_raises d) as [e|]; [destruct (swallowed e)|];
      reflexivity.
  - destruct H as [H|H]; [exact H | discriminate].
Qed.

Lemma cursor_records_limit w name d :
  get_limit_set_calls cfg = true ->
  _previous_cursor (state (_cursor cfg w name d)) = Some (super_cursor d).
Proof.
  intros Hl. apply cursor_records.
  destruct (decide (_previous_cursor w = Some (super_cursor d))) as [H|H];
    [left; exact H | right].
  unfold must_issue. rewrite (bool_decide_eq_false_2 _ H).
  apply orb_true_r.
Qed.

(** [_cursor] changes neither the role name nor the include-public flag. *)
Lemma cursor_keeps_selection w name d :
  role_name (state (_cursor cfg w name d)) = role_name w
  /\ include_public_role (state (_cursor cfg w name d))
     = include_public_role w.
Proof.
  unfold _cursor. destruct (must_issue cfg w (super_cursor d)).
  - cbn [role_name assign_previous_cursor].
    destruct (role_name w) as [[|a r]|] eqn:Hr; try (split; [exact Hr|reflexivity]).
    cbn [_check_role_name _is_valid_role_name negb Ok].
    rewrite search_paths_previous_cursor.
    destruct (search_paths cfg w (String a r));
      [|split; [exact Hr|reflexivity]].
    destruct (execute_raises d) as [e|]; [destruct (swallowed e)|];
      (split; [exact Hr|reflexivity]).
  - split; reflexivity.
Qed.

Lemma search_paths_after_cursor w name d r :
  search_paths cfg (state (_cursor cfg w name d)) r = search_paths cfg w r.
Proof.
  unfold search_paths.
  destruct (cursor_keeps_selection w name d) as [_ ->]. reflexivity.
Qed.

End Cursor.

(** ** The search path after a selection *)

(** C1, as stated, fails: with the shared name [public] and the extra path
    [shared_extra], the call that follows [set_role_to_public] builds
    [public, shared_extra], not [public] alone, and sends it. *)
Lemma public_search_path_has_extras :
  let w := set_role_to_public sample_config sample_wrapper in
  search_paths sample_config w "public" = Ok ["public"; "shared_extra"]
  /\ search_paths sample_config w "public" <> Ok ["public"]
  /\ statements (trace (_cursor sample_config w None (driver_ok 1)))
     = ["SET search_path = public,shared_extra"]
  /\ statements (trace (_cursor sample_config w None (driver_ok 1)))
     <> [directive ["public"]].
Proof. repeat split; vm_compute; congruence. Qed.

(** C1, amended: the call that follows a selection builds the shared name
    alone, the role and the shared name, or the role alone, and in each of
    the three cases the extra search paths after it, in their order; that
    list is what the call sends.  The role name is not empty (with an
    empty one the call raises before it builds a list). *)
Theorem search_path_after_selection
        (cfg : Config) (w : DatabaseWrapper) (r : string)
        (name : option string) (d : driver) :
  get_public_role_name cfg <> "" ->
  r <> "" ->
  r <> get_public_role_name cfg ->
  let public := get_public_role_name cfg in
  let extras := EXTRA_SEARCH_PATHS cfg in
  (search_paths cfg (set_role_to_public cfg w) public = Ok ([public] ++ extras)
   /\ statements (trace (_cursor cfg (set_role_to_public cfg w) name d))
      = [directive ([public] ++ extras)])
  /\ (search_paths cfg (set_role w r true) r = Ok ([r; public] ++ extras)
      /\ statements (trace (_cursor cfg (set_role w r true) name d))
         = [directive ([r; public] ++ extras)])
  /\ (search_paths cfg (set_role w r false) r = Ok ([r] ++ extras)
      /\ statements (trace (_cursor cfg (set_role w r false) name d))
         = [directive ([r] ++ extras)]).
Proof.
  intros Hpub Hr Hne public extras. subst public extras.
  apply String.eqb_neq in Hne.
  assert (Hp : search_paths cfg (set_role_to_public cfg w)
                 (get_public_role_name cfg)
               = Ok ([get_public_role_name cfg] ++ EXTRA_SEARCH_PATHS cfg)).
  { unfold search_paths. rewrite String.eqb_refl. reflexivity. }
  assert (Ht : search_paths cfg (set_role w r true) r
               = Ok ([r; get_public_role_name cfg] ++ EXTRA_SEARCH_PATHS cfg)).
  { unfold search_paths. rewrite Hne. reflexivity. }
  assert (Hf : search_paths cfg (set_role w r false) r
               = Ok ([r] ++ EXTRA_SEARCH_PATHS cfg)).
  { unfold search_paths. rewrite Hne. reflexivity. }
  repeat split; try assumption.
  - eapply cursor_issues; eauto using must_issue_stale.
  - eapply cursor_issues; eauto using must_issue_stale.
  - eapply cursor_issues; eauto using must_issue_stale.
Qed.

Lemma search_path_after_selection_witness :
  let w := set_role sample_wrapper "acme" true in
  search_paths sample_config w "acme"
  = Ok ["acme"; "public"; "shared_extra"]
  /\ statements (trace (_cursor sample_config w None (driver_ok 1)))
     = ["SET search_path = acme,public,shared_extra"].
Proof.
  assert (H1 : get_public_role_name sample_config <> "") by discriminate.
  assert (H2 : "acme" <> "") by discriminate.
  assert (H3 : "acme" <> get_public_role_name sample_config) by discriminate.
  destruct (search_path_after_selection sample_config sample_wrapper "acme"
              None (driver_ok 1) H1 H2 H3) as (_ & (Ha & Hb) & _).
  split; [exact Ha | exact Hb].
Defined.

(** ** The cache *)

Lemma run_cached (cfg : Config) (c : cursor)
      (calls : list (option string * driver)) :
  get_limit_set_calls cfg = true ->
  Forall (fun nd => super_cursor nd.2 = c) calls ->
  forall w,
    search_path_set w = Some true -> _previous_cursor w = Some c ->
    issued (run_cursor cfg w calls) = map (fun _ => []) calls
    /\ Forall (fun o => value o = Ok c /\ state o = w)
              (run_cursor cfg w calls).
Proof.
  intros Hl Hall. induction Hall as [|[name d] calls Hc _ IH];
    intros w Hs Hp; [split; constructor|].
  simpl in Hc. subst c.
  destruct (cursor_cached cfg w name d) as (Ht & Hv & Hst).
  { apply must_issue_cached; assumption. }
  cbn [run_cursor issued map]. rewrite Hst.
  destruct (IH w Hs Hp) as [IH1 IH2]. split.
  - rewrite Ht. f_equal. exact IH1.
  - constructor; [split; assumption | exact IH2].
Qed.

(** C2: with the limit on, take calls of [_cursor] that all get the same
    cursor while nothing is selected in between, starting where the
    directive is not applied (as after any selection).  If the first
    [execute] succeeds, the first call sends the directive, once, and no
    later call sends anything; every call returns the cursor. *)
Theorem directive_issued_once
        (cfg : Config) (w : DatabaseWrapper) (r : string)
        (paths : list string) (c : cursor)
        (name : option string) (d : driver)
        (calls : list (option string * driver)) :
  get_limit_set_calls cfg = true ->
  truthy_flag (search_path_set w) = false ->
  role_name w = Some r -> r <> "" -> search_paths cfg w r = Ok paths ->
  super_cursor d = c -> execute_raises d = None ->
  Forall (fun nd => super_cursor nd.2 = c) calls ->
  issued (run_cursor cfg w ((name, d) :: calls))
  = [directive paths] :: map (fun _ => []) calls
  /\ Forall (fun o => value o = Ok c) (run_cursor cfg w ((name, d) :: calls)).
Proof.
  intros Hl Hs Hr Hne Hp Hc He Hall.
  destruct (cursor_issues cfg w name d r paths) as (Ht & Hv & Hst);
    try assumption.
  { apply must_issue_stale, Hs. }
  unfold value_after_execute in Hv. unfold state_after_execute in Hst.
  rewrite He in Hv, Hst. rewrite Hc in Hv, Hst.
  destruct (run_cached cfg c calls Hl Hall (state (_cursor cfg w name d)))
    as [H1 H2].
  { rewrite Hst. reflexivity. }
  { rewrite Hst. reflexivity. }
  cbn [run_cursor issued map]. split.
  - rewrite Ht. f_equal. exact H1.
  - constructor; [exact Hv|].
    eapply Forall_impl; [exact H2|]. intros o [Ho _]. exact Ho.
Qed.

Lemma directive_issued_once_witness :
  issued (run_cursor sample_config
            (set_role sample_wrapper "acme" true)
            [(None, driver_ok 1); (None, driver_ok 1); (Some "named", driver_ok 1)])
  = [["SET search_path = acme,public,shared_extra"]; []; []].
Proof.
  refine (proj1 (directive_issued_once sample_config
            (set_role sample_wrapper "acme" true) "acme"
            ["acme"; "public"; "shared_extra"] 1 None (driver_ok 1)
            [(None, driver_ok 1); (Some "named", driver_ok 1)]
            _ _ _ _ _ _ _ _)); try reflexivity; try discriminate.
  repeat constructor.
Defined.

(** C4: with the limit on and nothing selected in between, a second call
    that gets another cursor than the one recorded at the first call sends
    the directive again. *)
Theorem other_cursor_reissues
        (cfg : Config) (w : DatabaseWrapper) (r : string)
        (paths : list string)
        (name1 name2 : option string) (d1 d2 : driver) :
  get_limit_set_calls cfg = true ->
  role_name w = Some r -> r <> "" -> search_paths cfg w r = Ok paths ->
  super_cursor d2 <> super_cursor d1 ->
  let o1 := _cursor cfg w name1 d1 in
  let o2 := _cursor cfg (state o1) name2 d2 in
  _previous_cursor (state o1) = Some (super_cursor d1)
  /\ statements (trace o2) = [directive paths]
  /\ _previous_cursor (state o2) = Some (super_cursor d2).
Proof.
  intros Hl Hr Hne Hp Hc o1 o2. subst o2 o1.
  assert (Hrec : _previous_cursor (state (_cursor cfg w name1 d1))
                 = Some (super_cursor d1))
    by (apply cursor_records_limit, Hl).
  assert (Hm : must_issue cfg (state (_cursor cfg w name1 d1))
                 (super_cursor d2) = true)
    by (eapply must_issue_other_cursor; eauto).
  split; [exact Hrec|]. split.
  - eapply cursor_issues; eauto.
    + destruct (cursor_keeps_selection cfg w name1 d1) as [-> _]. exact Hr.
    + rewrite search_paths_after_cursor. exact Hp.
  - apply cursor_records. right. exact Hm.
Qed.

Lemma other_cursor_reissues_witness :
  let w := set_role sample_wrapper "acme" true in
  let o1 := _cursor sample_config w None (driver_ok 1) in
  statements (trace (_cursor sample_config (state o1) None (driver_ok 7)))
  = ["SET search_path = acme,public,shared_extra"].
Proof.
  refine (proj1 (proj2 (other_cursor_reissues sample_config
            (set_role sample_wrapper "acme" true) "acme"
            ["acme"; "public"; "shared_extra"] None None
            (driver_ok 1) (driver_ok 7) _ _ _ _ _)));
    try reflexivity; discriminate.
Defined.

(** ** A wrapper on which the caller selected nothing *)




(** ** A directive that the engine rejects *)

(** The state and the calls after an exception that is not caught. *)
Lemma uncaught_exception_state
        (cfg : Config) (w : DatabaseWrapper) (r : string)
        (paths : list string) (name : option string) (d : driver)
        (e : exception) :
  must_issue cfg w (super_cursor d) = true ->
  role_name w = Some r -> r <> "" -> search_paths cfg w r = Ok paths ->
  execute_raises d = Some e -> swallowed e = false ->
  value (_cursor cfg w name d) = Raise e
  /\ search_path_set (state (_cursor cfg w name d)) = search_path_set w
  /\ _previous_cursor (state (_cursor cfg w name d)) = Some (super_cursor d)
  /\ forall c, CursorClose c ∉ trace (_cursor cfg w name d).
Proof.
  intros Hm Hr Hne Hp He Hs. unfold _cursor. rewrite Hm.
  cbn [role_name assign_previous_cursor]. rewrite Hr.
  destruct r as [|a r]; [congruence|].
  cbn [_check_role_name _is_valid_role_name negb Ok].
  rewrite search_paths_previous_cursor, Hp. unfold Ok. rewrite He, Hs.
  cbn [value state trace search_path_set _previous_cursor].
  repeat split. intros c Hin.
  destruct (truthy name); cbn in Hin;
    repeat (apply elem_of_cons in Hin as [Hin|Hin]; [discriminate|]);
    apply elem_of_nil in Hin; exact Hin.
Qed.

(** C6, as stated, fails: the [except] clause names two classes only.
    With a named cursor the directive runs on the cursor that
    [self.connection.cursor()] hands out; when its [execute] raises another
    exception, a [psycopg2.ProgrammingError] say, the call raises it, and
    the cursor opened for the directive is not closed. *)
Lemma programming_error_not_swallowed :
  let w := set_role sample_wrapper "acme" true in
  let d := driver_raising 1 (OtherException "psycopg2.ProgrammingError") in
  let o := _cursor sample_config w (Some "big_query") d in
  statements (trace o) = ["SET search_path = acme,public,shared_extra"]
  /\ value o = Raise (OtherException "psycopg2.ProgrammingError")
  /\ value o <> Ok (super_cursor d)
  /\ trace o
     = [SuperCursor (Some "big_query") 1; ConnectionCursor 2;
        Execute 2 "SET search_path = acme,public,shared_extra"].
Proof. repeat split; vm_compute; congruence. Qed.

(** C6, amended: let the call send the directive and [execute] raise.  If
    the exception is a [django.db.utils.DatabaseError] or a
    [psycopg2.InternalError], the call raises nothing and returns the
    cursor, [search_path_set] is [False], and the next call, whatever
    cursor it gets, sends the same directive again.  Any other exception
    leaves the call: [search_path_set] keeps the value it had, the cursor
    of the call is already the recorded one, and no cursor is closed. *)
Theorem rejected_directive_swallowed
        (cfg : Config) (w : DatabaseWrapper)
        (name : option string) (d : driver) (e : exception) :
  execute_raises d = Some e ->
  statements (trace (_cursor cfg w name d)) <> [] ->
  (swallowed e = true ->
   value (_cursor cfg w name d) = Ok (super_cursor d)
   /\ search_path_set (state (_cursor cfg w name d)) = Some false
   /\ forall name' d',
        statements (trace (_cursor cfg (state (_cursor cfg w name d)) name' d'))
        = statements (trace (_cursor cfg w name d)))
  /\ (swallowed e = false ->
      value (_cursor cfg w name d) = Raise e
      /\ search_path_set (state (_cursor cfg w name d)) = search_path_set w
      /\ _previous_cursor (state (_cursor cfg w name d))
         = Some (super_cursor d)
      /\ forall c, CursorClose c ∉ trace (_cursor cfg w name d)).
Proof.
  intros He Hsent.
  destruct (must_issue cfg w (super_cursor d)) eqn:Hm.
  2:{ destruct (cursor_cached cfg w name d Hm) as (Ht & _). congruence. }
  destruct (truthy (role_name w)) eqn:Hr.
  2:{ destruct (cursor_not_configured cfg w name d Hm Hr) as (Ht & _).
      congruence. }
  destruct (role_name w) as [r|] eqn:Hrole; [|discriminate].
  assert (Hne : r <> "") by (intros ->; discriminate).
  destruct (search_paths cfg w r) as [paths|e'] eqn:Hp.
  2:{ destruct (cursor_search_paths_raise cfg w name d r e' Hm Hrole Hne Hp)
        as (Ht & _). congruence. }
  split.
  - intros Hs.
    destruct (cursor_issues cfg w name d r paths Hm Hrole Hne Hp)
      as (Ht & Hv & Hst).
    unfold value_after_execute in Hv. unfold state_after_execute in Hst.
    rewrite He, Hs in Hv, Hst.
    split; [exact Hv|]. split; [rewrite Hst; reflexivity|].
    intros name' d'. rewrite Ht.
    eapply cursor_issues.
    + apply must_issue_stale. rewrite Hst. reflexivity.
    + rewrite Hst. exact Hrole.
    + exact Hne.
    + rewrite Hst. exact Hp.
  - intros Hs.
    exact (uncaught_exception_state cfg w r paths name d e
             Hm Hrole Hne Hp He Hs).
Qed.

Lemma rejected_directive_swallowed_witness :
  let w := set_role sample_wrapper "acme" true in
  let d := driver_raising 1 DjangoDatabaseError in
  let d' := driver_raising 1 (OtherException "psycopg2.ProgrammingError") in
  (value (_cursor sample_config w None d) = Ok 1
   /\ search_path_set (state (_cursor sample_config w None d)) = Some false
   /\ statements
        (trace (_cursor sample_config (state (_cursor sample_config w None d))
                  None (driver_ok 1)))
      = ["SET search_path = acme,public,shared_extra"])
  /\ value (_cursor sample_config w (Some "big_query") d')
     = Raise (OtherException "psycopg2.ProgrammingError").
Proof.
  intros w d d'. split.
  - destruct (rejected_directive_swallowed sample_config w None d
                DjangoDatabaseError) as [Hcaught _];
      [reflexivity | discriminate |].
    destruct (Hcaught eq_refl) as (Hv & Hs & Hn).
    split; [exact Hv | split; [exact Hs |]].
    exact (eq_trans (Hn None (driver_ok 1)) eq_refl).
  - destruct (rejected_directive_swallowed sample_config w (Some "big_query")
                d' (OtherException "psycopg2.ProgrammingError"))
      as [_ Hother]; [reflexivity | discriminate |].
    exact (proj1 (Hother eq_refl)).
Defined.

(** An exception that the [except] clause does not name leaves [_cursor]. *)
Lemma other_exception_propagates
      (cfg : Config) (w : DatabaseWrapper) (r : string) (paths : list string)
      (name : option string) (d : driver) (e : exception) :
  must_issue cfg w (super_cursor d) = true ->
  role_name w = Some r -> r <> "" -> search_paths cfg w r = Ok paths ->
  execute_raises d = Some e -> swallowed e = false ->
  value (_cursor cfg w name d) = Raise e.
Proof.
  intros Hm Hr Hne Hp He Hs.
  destruct (cursor_issues cfg w name d r paths Hm Hr Hne Hp) as (_ & Hv & _).
  unfold value_after_execute in Hv. rewrite He, Hs in Hv. exact Hv.
Qed.

(** With the limit off every call sends the directive. *)
Lemma limit_off_always_issues
      (cfg : Config) (w : DatabaseWrapper) (r : string) (paths : list string)
      (name : option string) (d : driver) :
  get_limit_set_calls cfg = false ->
  role_name w = Some r -> r <> "" -> search_paths cfg w r = Ok paths ->
  statements (trace (_cursor cfg w name d)) = [directive paths].
Proof.
  intros Hl Hr Hne Hp. eapply cursor_issues; eauto.
  unfold must_issue. rewrite Hl. reflexivity.
Qed.

(** ** [BaseTenantCommand.handle] *)

Section Handle.

Import Commands.

Variable W : World.
Variable command_name : string.
Variable opts : Options.

(** One execution: the tenant is selected, then the command is called. *)
Lemma execute_command_called t w :
  command_succeeds W ->
  (execute_command W opts t command_name w).1.1 = Ok tt
  /\ called_for (execute_command W opts t command_name w).2
     = [Some (ModelTenant t)].
Proof.
  intros Hok. unfold execute_command, bind, when, emit, update, ret.
  specialize (Hok command_name (set_tenant w (ModelTenant t) true)).
  destruct (call_command W command_name (set_tenant w (ModelTenant t) true))
    as [r w'] eqn:Hc.
  simpl in Hok. subst r.
  destruct (1 <=? opt_verbosity opts)%Z; cbn; rewrite Hc; cbn; split;
    reflexivity.
Qed.

(** A failing command ends the execution with its exception, after that
    one call. *)
Lemma execute_command_raises t w e :
  (call_command W command_name (set_tenant w (ModelTenant t) true)).1
  = Raise e ->
  (execute_command W opts t command_name w).1.1 = Raise e
  /\ called_for (execute_command W opts t command_name w).2
     = [Some (ModelTenant t)].
Proof.
  intros He. unfold execute_command, bind, when, emit, update, ret.
  destruct (call_command W command_name (set_tenant w (ModelTenant t) true))
    as [r w'] eqn:Hc.
  simpl in He. subst r.
  destruct (1 <=? opt_verbosity opts)%Z; cbn; rewrite Hc; cbn; split;
    reflexivity.
Qed.

(** The loop of the all-tenants branch, with [skip_public] set. *)
Lemma for_each_skip_public rows :
  command_succeeds W ->
  opt_skip_public opts = true ->
  forall w,
    (for_each rows
       (fun t =>
          when (negb (opt_skip_public opts
                      && String.eqb (row_role_name t)
                                    (get_public_role_name (config W))))
               (execute_command W opts t command_name)) w).1.1 = Ok tt
    /\ called_for
         (for_each rows
            (fun t =>
               when (negb (opt_skip_public opts
                           && String.eqb (row_role_name t)
                                         (get_public_role_name (config W))))
                    (execute_command W opts t command_name)) w).2
       = map (fun t => Some (ModelTenant t))
             (filter (fun t => row_role_name t <> get_public_role_name (config W))
                     rows).
Proof.
  intros Hok Hskip. rewrite Hskip.
  induction rows as [|t rows IH]; intros w.
  - split; reflexivity.
  - cbn [for_each andb]. unfold bind. rewrite filter_cons.
    destruct (String.eqb (row_role_name t) (get_public_role_name (config W)))
      eqn:He; cbn [negb when].
    + apply String.eqb_eq in He.
      destruct (decide (row_role_name t <> get_public_role_name (config W)))
        as [Hd|_]; [contradiction|].
      cbn [ret]. destruct (IH w) as [IH1 IH2]. cbn [andb] in IH1, IH2.
      destruct (for_each rows _ w) as [[r w'] log]. exact (conj IH1 IH2).
    + apply String.eqb_neq in He.
      destruct (decide (row_role_name t <> get_public_role_name (config W)))
        as [_|Hd]; [|contradiction].
      destruct (execute_command_called t w Hok) as [E1 E2].
      destruct (execute_command W opts t command_name w) as [[r w1] log1].
      simpl in E1, E2. subst r.
      destruct (IH w1) as [IH1 IH2]. cbn [andb] in IH1, IH2.
      destruct (for_each rows _ w1) as [[r w2] log2].
      simpl in IH1, IH2. split; [exact IH1|].
      unfold called_for in *. unfold Ok at 1. cbn [snd].
      rewrite omap_app, E2, IH2.
      reflexivity.
Qed.

(** [connection.set_schema_to_public()]: [DatabaseWrapper] binds no such
    name, so the call is answered by the wrapped backend, if at all. *)
Lemma set_schema_to_public_lookup w :
  connection_call W "set_schema_to_public" w
  = match inherited W "set_schema_to_public" with
    | Some f => (Ok tt, f w, [])
    | None => (Raise (AttributeError "set_schema_to_public"), w, [])
    end.
Proof.
  unfold connection_call.
  change (String.eqb "set_schema_to_public" "set_role_to_public") with false.
  change (String.eqb "set_schema_to_public" "close") with false.
  rewrite bool_decide_eq_false_2.
  - destruct (inherited W "set_schema_to_public"); reflexivity.
  - unfold DatabaseWrapper_attrs. intros H.
    repeat (apply elem_of_cons in H as [H|H]; [discriminate|]).
    apply elem_of_nil in H. exact H.
Qed.

(** With a role name given, [handle] stops at its first statement. *)
Lemma handle_single_attribute_error w :
  truthy (opt_role_name opts) = true ->
  inherited W "set_schema_to_public" = None ->
  handle W command_name opts w
  = (Raise (AttributeError "set_schema_to_public"), w, []).
Proof.
  intros Hr Hi. unfold handle. rewrite Hr. unfold bind.
  rewrite set_schema_to_public_lookup, Hi. reflexivity.
Qed.

End Handle.

(** C8: without a role name and with [skip_public] set, [handle] walks the
    tenants in the order of the directory and calls the command, the tenant
    selected, for exactly those whose role name is not the shared name, in
    that order; the wrapped command is taken to raise nothing. *)
Theorem all_tenants_skip_public
        (W : Commands.World) (command_name : string)
        (opts : Commands.Options) (w : DatabaseWrapper) :
  truthy (Commands.opt_role_name opts) = false ->
  Commands.opt_skip_public opts = true ->
  command_succeeds W ->
  (Commands.handle W command_name opts w).1.1 = Ok tt
  /\ Commands.called_for (Commands.handle W command_name opts w).2
     = map (fun t => Some (ModelTenant t))
           (filter (fun t => row_role_name t
                             <> get_public_role_name (Commands.config W))
                   (Commands.objects_all W)).
Proof.
  intros Hr Hskip Hok. unfold Commands.handle. rewrite Hr.
  apply for_each_skip_public; assumption.
Qed.

Lemma all_tenants_skip_public_witness :
  Commands.called_for
    (Commands.handle (sample_world [tenant_public; tenant_acme; tenant_globex])
       "migrate" (options_all true) sample_wrapper).2
  = [Some (ModelTenant tenant_acme); Some (ModelTenant tenant_globex)].
Proof.
  refine (eq_trans (proj2 (all_tenants_skip_public
            (sample_world [tenant_public; tenant_acme; tenant_globex])
            "migrate" (options_all true) sample_wrapper _ _ _)) _).
  - reflexivity.
  - reflexivity.
  - intros name w. reflexivity.
  - vm_compute. reflexivity.
Defined.

(** C9, at an input where the code leaves the claim: the role name [acme]
    is in the directory, yet [handle] raises [AttributeError] at
    [connection.set_schema_to_public()], a name that [DatabaseWrapper]
    does not bind, before it looks the tenant up; the command is not
    called and the connection is as it was. *)
Theorem single_tenant_mode_attribute_error :
  Commands.handle (sample_world [tenant_public; tenant_acme]) "migrate"
    (options_one "acme") sample_wrapper
  = (Raise (AttributeError "set_schema_to_public"), sample_wrapper, [])
  /\ Commands.called_for
       (Commands.handle (sample_world [tenant_public; tenant_acme]) "migrate"
          (options_one "acme") sample_wrapper).2 = [].
Proof.
  assert (H : Commands.handle (sample_world [tenant_public; tenant_acme])
                "migrate" (options_one "acme") sample_wrapper
              = (Raise (AttributeError "set_schema_to_public"),
                 sample_wrapper, [])).
  { apply handle_single_attribute_error; reflexivity. }
  split; [exact H | rewrite H; reflexivity].
Qed.

(** * Further properties of the code *)

(** ** The identifier validator *)


(** X2: [_check_identifier] raises [ValidationError] on every string that
    holds a semicolon or a quote character, wherever it stands. *)
Theorem check_identifier_rejects_separators (s : string) :
  contains_char (fun c => is_semicolon c || is_quote c) s = true ->
  _check_identifier s
  = Raise (ValidationError "Invalid string used for the identifier.").
Proof.
  intros H. unfold _check_identifier.
  rewrite (is_valid_identifier_no_separator s H). reflexivity.
Qed.

Lemma check_identifier_rejects_separators_witness :
  _check_identifier "public; DROP SCHEMA acme"
  = Raise (ValidationError "Invalid string used for the identifier.").
Proof.
  apply check_identifier_rejects_separators. reflexivity.
Defined.

(** X3: an accepted string has between 1 and 64 characters, and white space
    in it can only be the newline at its end. *)
Theorem valid_identifier_shape (s : string) :
  _is_valid_identifier s = true ->
  (1 <= String.length s <= 64)%nat
  /\ (contains_char is_whitespace s = true ->
      exists s0, s = (s0 ++ String Re.newline "")%string
                 /\ contains_char is_whitespace s0 = false).
Proof.
  intros Hv. split; [split|].
  - destruct s; [discriminate | simpl; lia].
  - apply is_valid_identifier_length, Hv.
  - intros Hw.
    destruct (is_valid_identifier_whitespace s Hv Hw) as (s0 & -> & Hs).
    exists s0. split; [reflexivity|].
    apply (spec_identifier_chars _ s0 tail_char_not_whitespace Hs).
Qed.

Lemma valid_identifier_shape_witness :
  (1 <= String.length "tenant_1" <= 64)%nat.
Proof.
  apply (valid_identifier_shape "tenant_1"). reflexivity.
Defined.

(** ** More on [DatabaseWrapper] *)

(** X4: [close] marks the search path as not set, so the next call of
    [_cursor] sends the directive again, also when it gets the cursor it
    had before and the limit is on. *)
Theorem close_forces_directive
        (cfg : Config) (w : DatabaseWrapper) (r : string)
        (paths : list string) (name : option string) (d : driver) :
  role_name w = Some r -> r <> "" -> search_paths cfg w r = Ok paths ->
  search_path_set (state (close w)) = Some false
  /\ statements (trace (_cursor cfg (state (close w)) name d))
     = [directive paths].
Proof.
  intros Hr Hne Hp. split; [reflexivity|].
  eapply cursor_issues; eauto. apply must_issue_stale. reflexivity.
Qed.

Lemma close_forces_directive_witness :
  let w := state (_cursor sample_config sample_wrapper None (driver_ok 1)) in
  statements (trace (_cursor sample_config w None (driver_ok 1))) = []
  /\ statements
       (trace (_cursor sample_config (state (close w)) None (driver_ok 1)))
     = ["SET search_path = public,shared_extra"].
Proof.
  intros w. split; [reflexivity|].
  refine (proj2 (close_forces_directive sample_config w "public"
                   ["public"; "shared_extra"] None (driver_ok 1) _ _ _));
    try reflexivity; discriminate.
Defined.

(** X5: after [set_tenant] the next call sends the tenant's role alone when
    it is the public role, the role and the public role when
    [include_public] is set, the role alone otherwise, and the extra paths
    after it. *)
Theorem search_path_after_set_tenant
        (cfg : Config) (w : DatabaseWrapper) (t : tenant_obj) (inc : bool)
        (name : option string) (d : driver) :
  tenant_role_name t <> "" ->
  statements (trace (_cursor cfg (set_tenant w t inc) name d))
  = [directive (chosen_paths cfg (tenant_role_name t) inc
                ++ EXTRA_SEARCH_PATHS cfg)].
Proof.
  intros Hne.
  destruct (cursor_issues cfg (set_tenant w t inc) name d (tenant_role_name t)
              (chosen_paths cfg (tenant_role_name t) inc
               ++ EXTRA_SEARCH_PATHS cfg)) as (Ht & _).
  - apply must_issue_stale. reflexivity.
  - reflexivity.
  - exact Hne.
  - unfold search_paths, chosen_paths.
    cbn [include_public_role set_tenant assign_search_path_set
         set_settings_role assign_include_public_role].
    destruct (String.eqb (tenant_role_name t) (get_public_role_name cfg));
      [|destruct inc]; reflexivity.
  - exact Ht.
Qed.

Lemma search_path_after_set_tenant_witness :
  statements
    (trace (_cursor sample_config
              (set_tenant sample_wrapper (ModelTenant tenant_acme) false)
              None (driver_ok 1)))
  = ["SET search_path = acme,shared_extra"].
Proof.
  refine (eq_trans (search_path_after_set_tenant sample_config sample_wrapper
            (ModelTenant tenant_acme) false None (driver_ok 1) _) _).
  - discriminate.
  - reflexivity.
Defined.

(** X6: with the limit off, every call of a run sends the directive. *)
Theorem limit_off_every_call
        (cfg : Config) (r : string) (paths : list string)
        (calls : list (option string * driver)) (w : DatabaseWrapper) :
  get_limit_set_calls cfg = false ->
  role_name w = Some r -> r <> "" -> search_paths cfg w r = Ok paths ->
  issued (run_cursor cfg w calls) = map (fun _ => [directive paths]) calls.
Proof.
  intros Hl Hr Hne. revert w Hr.
  induction calls as [|[name d] calls IH]; intros w Hr Hp; [reflexivity|].
  cbn [run_cursor issued map]. f_equal.
  - apply (limit_off_always_issues cfg w r paths name d); assumption.
  - apply IH.
    + destruct (cursor_keeps_selection cfg w name d) as [-> _]. exact Hr.
    + rewrite search_paths_after_cursor. exact Hp.
Qed.

Lemma limit_off_every_call_witness :
  issued (run_cursor sample_config_unlimited
            (__init__ sample_config_unlimited ∅)
            [(None, driver_ok 1); (None, driver_ok 1)])
  = [["SET search_path = public,shared_extra"];
     ["SET search_path = public,shared_extra"]].
Proof.
  refine (limit_off_every_call sample_config_unlimited "public"
            ["public"; "shared_extra"]
            [(None, driver_ok 1); (None, driver_ok 1)]
            (__init__ sample_config_unlimited ∅) _ _ _ _);
    try reflexivity; discriminate.
Defined.

(** X7: the calls that [_cursor] makes when it sends the directive and
    [execute] raises nothing past the [except] clause.  Without a name the
    directive runs on the cursor that is returned; with a name it runs on
    a cursor of its own, which is closed, and never on the named cursor. *)
Theorem directive_cursor
        (cfg : Config) (w : DatabaseWrapper) (r : string)
        (paths : list string) (name : option string) (d : driver) :
  must_issue cfg w (super_cursor d) = true ->
  role_name w = Some r -> r <> "" -> search_paths cfg w r = Ok paths ->
  value_after_execute d = Ok (super_cursor d) ->
  trace (_cursor cfg w name d)
  = if truthy name
    then [SuperCursor name (super_cursor d);
          ConnectionCursor (connection_cursor d);
          Execute (connection_cursor d) (directive paths);
          CursorClose (connection_cursor d)]
    else [SuperCursor None (super_cursor d);
          Execute (super_cursor d) (directive paths)].
Proof.
  intros Hm Hr Hne Hp Hv. unfold _cursor. rewrite Hm.
  cbn [role_name assign_previous_cursor]. rewrite Hr.
  destruct r as [|a r]; [congruence|].
  cbn [_check_role_name _is_valid_role_name negb Ok].
  rewrite search_paths_previous_cursor, Hp. unfold Ok.
  unfold value_after_execute in Hv.
  destruct (execute_raises d) as [e|]; [destruct (swallowed e)|];
    try discriminate; destruct (truthy name); reflexivity.
Qed.

Lemma directive_cursor_witness :
  trace (_cursor sample_config sample_wrapper (Some "big_query") (driver_ok 1))
  = [SuperCursor (Some "big_query") 1; ConnectionCursor 2;
     Execute 2 "SET search_path = public,shared_extra"; CursorClose 2].
Proof.
  refine (eq_trans (directive_cursor sample_config sample_wrapper "public"
            ["public"; "shared_extra"] (Some "big_query") (driver_ok 1)
            _ _ _ _ _) _); try reflexivity; discriminate.
Defined.

(** X8: when [execute] raises an exception that the [except] clause does
    not name, the exception leaves [_cursor]; [search_path_set] keeps the
    value it had, the cursor of the call is already the recorded one, and
    the cursor opened for the directive of a named cursor is not closed. *)
Theorem uncaught_exception_leaves
        (cfg : Config) (w : DatabaseWrapper) (r : string)
        (paths : list string) (name : option string) (d : driver)
        (e : exception) :
  must_issue cfg w (super_cursor d) = true ->
  role_name w = Some r -> r <> "" -> search_paths cfg w r = Ok paths ->
  execute_raises d = Some e -> swallowed e = false ->
  value (_cursor cfg w name d) = Raise e
  /\ search_path_set (state (_cursor cfg w name d)) = search_path_set w
  /\ _previous_cursor (state (_cursor cfg w name d)) = Some (super_cursor d)
  /\ forall c, CursorClose c ∉ trace (_cursor cfg w name d).
Proof. apply uncaught_exception_state. Qed.

Lemma uncaught_exception_leaves_witness :
  value (_cursor sample_config sample_wrapper (Some "big_query")
           (driver_raising 1 (OtherException "InterfaceError")))
  = Raise (OtherException "InterfaceError").
Proof.
  refine (proj1 (uncaught_exception_leaves sample_config sample_wrapper
            "public" ["public"; "shared_extra"] (Some "big_query")
            (driver_raising 1 (OtherException "InterfaceError"))
            (OtherException "InterfaceError") _ _ _ _ _ _));
    try reflexivity; discriminate.
Defined.

(** X9: the cursor is recorded before the directive is sent.  So when the
    path was set on one cursor, the call gets another cursor, and [execute]
    raises past the [except] clause, a further call with that cursor and
    the limit on sends no directive, though none succeeded on it. *)
Theorem failed_directive_not_retried
        (cfg : Config) (w : DatabaseWrapper) (r : string)
        (paths : list string) (name name' : option string) (d d' : driver)
        (e : exception) :
  get_limit_set_calls cfg = true ->
  search_path_set w = Some true ->
  _previous_cursor w <> Some (super_cursor d) ->
  role_name w = Some r -> r <> "" -> search_paths cfg w r = Ok paths ->
  execute_raises d = Some e -> swallowed e = false ->
  super_cursor d' = super_cursor d ->
  value (_cursor cfg w name d) = Raise e
  /\ statements (trace (_cursor cfg (state (_cursor cfg w name d)) name' d'))
     = []
  /\ value (_cursor cfg (state (_cursor cfg w name d)) name' d')
     = Ok (super_cursor d).
Proof.
  intros Hl Hs Hprev Hr Hne Hp He Hsw Hd.
  assert (Hm : must_issue cfg w (super_cursor d) = true).
  { unfold must_issue. rewrite (bool_decide_eq_false_2 _ Hprev).
    apply orb_true_r. }
  destruct (uncaught_exception_state cfg w r paths name d e
              Hm Hr Hne Hp He Hsw) as (Hv & Hs' & Hp' & _).
  split; [exact Hv|].
  destruct (cursor_cached cfg (state (_cursor cfg w name d)) name' d')
    as (Ht & Hv' & _).
  - apply must_issue_cached; [exact Hl | congruence | congruence].
  - rewrite Hd in Hv'. split; assumption.
Qed.

Lemma failed_directive_not_retried_witness :
  let w := state (_cursor sample_config sample_wrapper None (driver_ok 1)) in
  let d := driver_raising 2 (OtherException "InterfaceError") in
  value (_cursor sample_config w None d)
  = Raise (OtherException "InterfaceError")
  /\ statements
       (trace (_cursor sample_config (state (_cursor sample_config w None d))
                 None (driver_ok 2))) = [].
Proof.
  intros w d.
  destruct (failed_directive_not_retried sample_config w "public"
              ["public"; "shared_extra"] None None d (driver_ok 2)
              (OtherException "InterfaceError")) as (H1 & H2 & _);
    try reflexivity; try discriminate.
  split; [exact H1 | exact H2].
Defined.

(** [_cursor] keeps the attributes of the selection. *)
Lemma cursor_keeps_attributes
        (cfg : Config) (w : DatabaseWrapper) (name : option string)
        (d : driver) :
  tenant (state (_cursor cfg w name d)) = tenant w
  /\ role_name (state (_cursor cfg w name d)) = role_name w
  /\ include_public_role (state (_cursor cfg w name d))
     = include_public_role w
  /\ settings_dict (state (_cursor cfg w name d)) = settings_dict w.
Proof.
  unfold _cursor. destruct (must_issue cfg w (super_cursor d));
    [|repeat split].
  cbn [role_name assign_previous_cursor].
  destruct (role_name w) as [[|a r]|] eqn:Hr;
    try (repeat split; exact Hr).
  cbn [_check_role_name _is_valid_role_name negb Ok].
  rewrite search_paths_previous_cursor.
  destruct (search_paths cfg w (String a r));
    [|repeat split; exact Hr].
  destruct (execute_raises d) as [e|]; [destruct (swallowed e)|];
    repeat split; exact Hr.
Qed.

(** X10: [_cursor] changes [search_path_set] and [_previous_cursor] only:
    tenant, role name, include-public flag and settings stay. *)
Theorem cursor_frame
        (cfg : Config) (w : DatabaseWrapper) (name : option string)
        (d : driver) :
  tenant (state (_cursor cfg w name d)) = tenant w
  /\ role_name (state (_cursor cfg w name d)) = role_name w
  /\ include_public_role (state (_cursor cfg w name d))
     = include_public_role w
  /\ settings_dict (state (_cursor cfg w name d)) = settings_dict w.
Proof. apply cursor_keeps_attributes. Qed.

(** ** What the interface keeps true *)

Section Consistency.

Variable cfg : Config.

Lemma consistent_init settings : consistent cfg (__init__ cfg settings).
Proof.
  exists (get_public_role_name cfg), (FakeTenant (get_public_role_name cfg)).
  repeat split; [apply lookup_insert_eq | left; reflexivity].
Qed.

Lemma consistent_step w c : consistent cfg w -> consistent cfg (after_call cfg w c).
Proof.
  intros (r & t & Hr & Ht & Htr & Hs & Hi).
  destruct c as [t' inc|r' inc| | |name d]; cbn [after_call].
  - exists (tenant_role_name t'), t'.
    repeat split; [apply lookup_insert_eq | right; eexists; reflexivity].
  - exists r', (FakeTenant r').
    repeat split; [apply lookup_insert_eq | right; eexists; reflexivity].
  - exists (get_public_role_name cfg), (FakeTenant (get_public_role_name cfg)).
    repeat split; [apply lookup_insert_eq | left; reflexivity].
  - exists r, t. repeat split; assumption.
  - destruct (cursor_keeps_attributes cfg w name d) as (Et & Er & Ei & Es).
    exists r, t. rewrite Et, Er, Ei, Es. repeat split; assumption.
Qed.

Lemma consistent_fold cs : forall w,
  consistent cfg w -> consistent cfg (fold_left (after_call cfg) cs w).
Proof.
  induction cs as [|c cs IH]; intros w Hw; [exact Hw|].
  cbn [fold_left]. apply IH, consistent_step, Hw.
Qed.


End Consistency.

(** X11: after the constructor and any sequence of calls of [set_tenant],
    [set_role], [set_role_to_public], [close] and [_cursor], a role is
    selected, the tenant object and the [ROLE] entry of the settings carry
    its name, and the include-public flag is set unless the role is the
    public one. *)
Theorem interface_keeps_consistent
        (cfg : Config) (settings : gmap string string) (cs : list call) :
  consistent cfg (after_calls cfg settings cs).
Proof.
  unfold after_calls. apply consistent_fold, consistent_init.
Qed.


(** X13: the deprecated getters agree on every such wrapper: the tenant
    that [get_tenant] returns has the role name that [get_role] returns. *)
Theorem getters_agree
        (cfg : Config) (settings : gmap string string) (cs : list call) :
  exists r t,
    (get_role (after_calls cfg settings cs)).1 = Some r
    /\ (get_tenant (after_calls cfg settings cs)).1 = Some t
    /\ tenant_role_name t = r.
Proof.
  destruct (consistent_fold cfg cs _ (consistent_init cfg settings))
    as (r & t & Hr & Ht & Htr & _).
  exists r, t. repeat split; assumption.
Qed.

(** ** Selections in a row *)

Lemma wrapper_eq (w1 w2 : DatabaseWrapper) :
  search_path_set w1 = search_path_set w2 ->
  tenant w1 = tenant w2 ->
  role_name w1 = role_name w2 ->
  include_public_role w1 = include_public_role w2 ->
  _previous_cursor w1 = _previous_cursor w2 ->
  settings_dict w1 = settings_dict w2 ->
  w1 = w2.
Proof.
  destruct w1, w2; simpl; intros; subst; reflexivity.
Qed.

(** X14: of two selections in a row the second one decides: [set_role] and
    [set_tenant] leave nothing of the selection before them, whichever of
    the three it was, and [set_role_to_public] leaves only the
    include-public flag of a [set_role] or [set_tenant] before it. *)
Theorem last_selection_wins
        (cfg : Config) (w : DatabaseWrapper) (t t' : tenant_obj)
        (r r' : string) (inc inc' : bool) :
  set_role (set_role w r inc) r' inc' = set_role w r' inc'
  /\ set_role (set_tenant w t inc) r' inc' = set_role w r' inc'
  /\ set_role (set_role_to_public cfg w) r' inc' = set_role w r' inc'
  /\ set_tenant (set_role w r inc) t' inc' = set_tenant w t' inc'
  /\ set_tenant (set_tenant w t inc) t' inc' = set_tenant w t' inc'
  /\ set_tenant (set_role_to_public cfg w) t' inc' = set_tenant w t' inc'
  /\ set_role_to_public cfg (set_role_to_public cfg w)
     = set_role_to_public cfg w
  /\ set_role_to_public cfg (set_role w r inc)
     = assign_include_public_role (Some inc) (set_role_to_public cfg w)
  /\ set_role_to_public cfg (set_tenant w t inc)
     = assign_include_public_role (Some inc) (set_role_to_public cfg w).
Proof.
  repeat split; apply wrapper_eq; try reflexivity;
    cbn [set_tenant set_role set_role_to_public settings_dict
         assign_search_path_set set_settings_role assign_tenant
         assign_role_name assign_include_public_role];
    apply insert_insert_eq.
Qed.

(** ** More on [BaseTenantCommand.handle] *)

Section HandleAll.

Import Commands.

Variable W : World.
Variable command_name : string.
Variable opts : Options.

(** One execution on which the command succeeds. *)
Lemma execute_command_ok t w :
  (call_command W command_name (set_tenant w (ModelTenant t) true)).1
  = Ok tt ->
  (execute_command W opts t command_name w).1.1 = Ok tt
  /\ called_for (execute_command W opts t command_name w).2
     = [Some (ModelTenant t)].
Proof.
  intros Hok. unfold execute_command, bind, when, emit, update, ret.
  destruct (call_command W command_name (set_tenant w (ModelTenant t) true))
    as [r w'] eqn:Hc.
  simpl in Hok. subst r.
  destruct (1 <=? opt_verbosity opts)%Z; cbn; rewrite Hc; cbn; split;
    reflexivity.
Qed.

(** Without [skip_public] no tenant is skipped. *)
Lemma visited_all rows :
  opt_skip_public opts = false -> visited W opts rows = rows.
Proof.
  intros Hskip. unfold visited, skipped. rewrite Hskip.
  induction rows as [|t rows IH]; [reflexivity|].
  cbn [List.filter andb negb]. f_equal. exact IH.
Qed.

(** The loop while the command succeeds on every tenant it reaches, up to
    a tenant on which it raises; [skip_public] is set or not. *)
Lemma for_each_raises pre t post e :
  skipped W opts t = false ->
  (forall t' w, t' ∈ pre -> skipped W opts t' = false ->
     (call_command W command_name (set_tenant w (ModelTenant t') true)).1
     = Ok tt) ->
  (forall w,
     (call_command W command_name (set_tenant w (ModelTenant t) true)).1
     = Raise e) ->
  forall w,
    (for_each (pre ++ t :: post)
       (fun t =>
          when (negb (opt_skip_public opts
                      && String.eqb (row_role_name t)
                                    (get_public_role_name (config W))))
               (execute_command W opts t command_name)) w).1.1 = Raise e
    /\ called_for
         (for_each (pre ++ t :: post)
            (fun t =>
               when (negb (opt_skip_public opts
                           && String.eqb (row_role_name t)
                                         (get_public_role_name (config W))))
                    (execute_command W opts t command_name)) w).2
       = map (fun t => Some (ModelTenant t)) (visited W opts pre ++ [t]).
Proof.
  intros Hskip Hpre Ht.
  change (fun t0 : Tenant =>
            when (negb (opt_skip_public opts
                        && String.eqb (row_role_name t0)
                                      (get_public_role_name (config W))))
                 (execute_command W opts t0 command_name))
    with (fun t0 : Tenant =>
            when (negb (skipped W opts t0))
                 (execute_command W opts t0 command_name)).
  induction pre as [|t' pre IH]; intros w; cbn [app for_each]; unfold bind.
  - rewrite Hskip. cbn [negb when visited List.filter app map].
    destruct (execute_command_raises W command_name opts t w e (Ht w))
      as [E1 E2].
    destruct (execute_command W opts t command_name w) as [[r w1] log1].
    simpl in E1, E2. subst r. split; [reflexivity | exact E2].
  - specialize (IH (fun t0 w0 H0 =>
                      Hpre t0 w0 (list_elem_of_further _ _ _ H0))).
    unfold visited. cbn [List.filter]. fold (visited W opts pre).
    destruct (skipped W opts t') eqn:Hs; cbn [negb when ret].
    + destruct (IH w) as [IH1 IH2].
      destruct (for_each (pre ++ t :: post) _ w) as [[r w2] log2].
      simpl in IH1, IH2. split; [exact IH1 | exact IH2].
    + destruct (execute_command_ok t' w) as [E1 E2].
      { apply Hpre; [left | exact Hs]. }
      destruct (execute_command W opts t' command_name w) as [[r w1] log1].
      simpl in E1, E2. subst r.
      destruct (IH w1) as [IH1 IH2].
      destruct (for_each (pre ++ t :: post) _ w1) as [[r w2] log2].
      simpl in IH1, IH2. unfold Ok. cbn [fst snd].
      split; [exact IH1|].
      unfold called_for in *. rewrite omap_app, E2, IH2. reflexivity.
Qed.

(** The loop without [skip_public]. *)
Lemma for_each_all rows :
  command_succeeds W ->
  opt_skip_public opts = false ->
  forall w,
    (for_each rows
       (fun t =>
          when (negb (opt_skip_public opts
                      && String.eqb (row_role_name t)
                                    (get_public_role_name (config W))))
               (execute_command W opts t command_name)) w).1.1 = Ok tt
    /\ called_for
         (for_each rows
            (fun t =>
               when (negb (opt_skip_public opts
                           && String.eqb (row_role_name t)
                                         (get_public_role_name (config W))))
                    (execute_command W opts t command_name)) w).2
       = map (fun t => Some (ModelTenant t)) rows.
Proof.
  intros Hok Hskip. rewrite Hskip.
  induction rows as [|t rows IH]; intros w; [split; reflexivity|].
  cbn [for_each andb negb when]. unfold bind.
  destruct (execute_command_called W command_name opts t w Hok) as [E1 E2].
  destruct (execute_command W opts t command_name w) as [[r w1] log1].
  simpl in E1, E2. subst r.
  destruct (IH w1) as [IH1 IH2]. cbn [andb negb when] in IH1, IH2.
  destruct (for_each rows _ w1) as [[r w2] log2].
  simpl in IH1, IH2. unfold Ok. cbn [fst snd].
  split; [exact IH1|].
  unfold called_for in *. rewrite omap_app, E2, IH2. reflexivity.
Qed.

End HandleAll.

(** X15: without a role name and without [skip_public], [handle] calls the
    command for every tenant of the directory, the public one too, in the
    order of the directory (the command raising nothing). *)
Theorem all_tenants_in_order
        (W : Commands.World) (command_name : string)
        (opts : Commands.Options) (w : DatabaseWrapper) :
  truthy (Commands.opt_role_name opts) = false ->
  Commands.opt_skip_public opts = false ->
  command_succeeds W ->
  (Commands.handle W command_name opts w).1.1 = Ok tt
  /\ Commands.called_for (Commands.handle W command_name opts w).2
     = map (fun t => Some (ModelTenant t)) (Commands.objects_all W).
Proof.
  intros Hr Hskip Hok. unfold Commands.handle. rewrite Hr.
  apply for_each_all; assumption.
Qed.

Lemma all_tenants_in_order_witness :
  Commands.called_for
    (Commands.handle (sample_world [tenant_acme; tenant_public])
       "migrate" (options_all false) sample_wrapper).2
  = [Some (ModelTenant tenant_acme); Some (ModelTenant tenant_public)].
Proof.
  refine (proj2 (all_tenants_in_order
            (sample_world [tenant_acme; tenant_public])
            "migrate" (options_all false) sample_wrapper _ _ _)).
  - reflexivity.
  - reflexivity.
  - intros name w. reflexivity.
Defined.

(** X16: the loop stops at the first tenant on which the command raises,
    with [skip_public] set or not.  Let the command raise on a tenant that
    the loop does not skip, and raise nothing on the tenants before it that
    the loop does not skip: then [handle] raises that exception, and the
    command was called for those tenants before it and for that tenant, in
    the order of the directory, and for none after it.  Without
    [skip_public] these are all the tenants up to that one. *)
Theorem all_tenants_fail_fast
        (W : Commands.World) (command_name : string)
        (opts : Commands.Options) (w : DatabaseWrapper)
        (pre post : list Tenant) (t : Tenant) (e : exception) :
  truthy (Commands.opt_role_name opts) = false ->
  Commands.objects_all W = pre ++ t :: post ->
  skipped W opts t = false ->
  (forall t' w', t' ∈ pre -> skipped W opts t' = false ->
     (Commands.call_command W command_name
        (set_tenant w' (ModelTenant t') true)).1 = Ok tt) ->
  (forall w',
     (Commands.call_command W command_name
        (set_tenant w' (ModelTenant t) true)).1 = Raise e) ->
  (Commands.handle W command_name opts w).1.1 = Raise e
  /\ Commands.called_for (Commands.handle W command_name opts w).2
     = map (fun t => Some (ModelTenant t)) (visited W opts pre ++ [t])
  /\ (Commands.opt_skip_public opts = false ->
      Commands.called_for (Commands.handle W command_name opts w).2
      = map (fun t => Some (ModelTenant t)) (pre ++ [t])).
Proof.
  intros Hr Hrows Hskip Hpre Ht.
  assert (H : (Commands.handle W command_name opts w).1.1 = Raise e
              /\ Commands.called_for (Commands.handle W command_name opts w).2
                 = map (fun t => Some (ModelTenant t))
                       (visited W opts pre ++ [t])).
  { unfold Commands.handle. rewrite Hr, Hrows.
    apply for_each_raises; assumption. }
  destruct H as [H1 H2]. split; [exact H1|]. split; [exact H2|].
  intros Hoff. rewrite H2, (visited_all W opts pre Hoff). reflexivity.
Qed.

Lemma all_tenants_fail_fast_witness :
  let W := sample_world_failing [tenant_public; tenant_acme; tenant_globex] in
  (let out := Commands.handle W "migrate" (options_all true) sample_wrapper in
   out.1.1 = Raise (OtherException "failed")
   /\ Commands.called_for out.2 = [Some (ModelTenant tenant_acme)])
  /\ (let out := Commands.handle W "migrate" (options_all false)
                   sample_wrapper in
      out.1.1 = Raise (OtherException "failed")
      /\ Commands.called_for out.2
         = [Some (ModelTenant tenant_public); Some (ModelTenant tenant_acme)]).
Proof.
  intros W. split.
  - destruct (all_tenants_fail_fast W "migrate" (options_all true)
                sample_wrapper [tenant_public] [tenant_globex] tenant_acme
                (OtherException "failed")) as (H1 & H2 & _).
    + reflexivity.
    + reflexivity.
    + reflexivity.
    + intros t' w' Hin. apply list_elem_of_singleton in Hin. subst t'.
      discriminate.
    + intros w'. reflexivity.
    + split; [exact H1 | exact H2].
  - destruct (all_tenants_fail_fast W "migrate" (options_all false)
                sample_wrapper [tenant_public] [tenant_globex] tenant_acme
                (OtherException "failed")) as (H1 & _ & H3).
    + reflexivity.
    + reflexivity.
    + reflexivity.
    + intros t' w' Hin _. apply list_elem_of_singleton in Hin. subst t'.
      reflexivity.
    + intros w'. reflexivity.
    + split; [exact H1 | exact (H3 eq_refl)].
Defined.

(** ** [SyncCommon.handle] *)

Section SyncScope.

Variable cfg : Config.
Variable settings : Sync.Settings.

(** The flags after [handle], case by case. *)
Lemma sync_handle_cases options :
  match Sync.handle cfg settings options with
  | inr e =>
      truthy (Sync.opt_role_name options) = true
      /\ Sync.opt_shared options = true
      /\ e = Sync.CommandError
               "schema should only be used with the --tenant switch."
  | inl s =>
      Sync.role_name s = Sync.opt_role_name options
      /\ Sync.executor s = Sync.opt_executor options
      /\ if truthy (Sync.opt_role_name options)
         then Sync.opt_shared options = false
              /\ Sync.sync_public s
                 = String.eqb (default "" (Sync.opt_role_name options))
                              (get_public_role_name cfg)
              /\ Sync.sync_tenant s
                 = Sync.opt_tenant options
                   || negb (String.eqb (default "" (Sync.opt_role_name options))
                                       (get_public_role_name cfg))
         else if Sync.opt_tenant options || Sync.opt_shared options
              then Sync.sync_tenant s = Sync.opt_tenant options
                   /\ Sync.sync_public s = Sync.opt_shared options
              else Sync.sync_tenant s = true /\ Sync.sync_public s = true
  end.
Proof.
  unfold Sync.handle.
  destruct (truthy (Sync.opt_role_name options));
    destruct (Sync.opt_shared options), (Sync.opt_tenant options);
    try destruct (String.eqb _ _); cbn; repeat split.
Qed.

End SyncScope.

(** X17: when [SyncCommon.handle] returns, at least one of [sync_tenant]
    and [sync_public] is set, and a scope asked for on the command line is
    never dropped. *)
Theorem sync_scope_not_empty
        (cfg : Config) (settings : Sync.Settings) (options : Sync.Options)
        (s : Sync.SyncCommon) :
  Sync.handle cfg settings options = inl s ->
  Sync.sync_tenant s || Sync.sync_public s = true
  /\ (Sync.opt_tenant options = true -> Sync.sync_tenant s = true)
  /\ (Sync.opt_shared options = true -> Sync.sync_public s = true).
Proof.
  intros H. pose proof (sync_handle_cases cfg settings options) as Hc.
  rewrite H in Hc. destruct Hc as (_ & _ & Hc).
  destruct (truthy (Sync.opt_role_name options)).
  - destruct Hc as (Hs & Hp & Ht). rewrite Hp, Ht, Hs.
    destruct (Sync.opt_tenant options), (String.eqb _ _); repeat split;
      intros; congruence.
  - destruct (Sync.opt_tenant options) eqn:E1,
             (Sync.opt_shared options) eqn:E2;
      destruct Hc as [-> ->]; repeat split; intros; congruence.
Qed.

Lemma sync_scope_not_empty_witness :
  exists s,
    Sync.handle sample_config sample_sync_settings
      (sync_options false false None) = inl s
    /\ Sync.sync_tenant s || Sync.sync_public s = true.
Proof.
  eexists. split; [reflexivity|].
  exact (proj1 (sync_scope_not_empty sample_config sample_sync_settings
                  (sync_options false false None) _ eq_refl)).
Defined.

(** X18: [SyncCommon.handle] raises [CommandError] exactly when a schema is
    given together with [--shared]. *)
Theorem sync_schema_with_shared
        (cfg : Config) (settings : Sync.Settings) (options : Sync.Options) :
  Sync.handle cfg settings options
  = inr (Sync.CommandError
           "schema should only be used with the --tenant switch.")
  <-> truthy (Sync.opt_role_name options) = true
      /\ Sync.opt_shared options = true.
Proof.
  pose proof (sync_handle_cases cfg settings options) as Hc. split.
  - intros H. rewrite H in Hc. destruct Hc as (H1 & H2 & _). split; assumption.
  - intros [H1 H2]. destruct (Sync.handle cfg settings options) as [s|e].
    + destruct Hc as (_ & _ & Hc). rewrite H1 in Hc.
      destruct Hc as (Hs & _). congruence.
    + destruct Hc as (_ & _ & ->). reflexivity.
Qed.

(** X19: with a schema and without [--shared], the public role turns the
    shared scope on and leaves the tenant scope as asked; any other role
    turns the tenant scope on and leaves the shared scope off. *)
Theorem sync_with_schema
        (cfg : Config) (settings : Sync.Settings) (options : Sync.Options)
        (name : string) :
  Sync.opt_role_name options = Some name -> name <> "" ->
  Sync.opt_shared options = false ->
  exists s,
    Sync.handle cfg settings options = inl s
    /\ Sync.role_name s = Some name
    /\ if String.eqb name (get_public_role_name cfg)
       then Sync.sync_public s = true
            /\ Sync.sync_tenant s = Sync.opt_tenant options
       else Sync.sync_public s = false /\ Sync.sync_tenant s = true.
Proof.
  intros Hn Hne Hs.
  pose proof (sync_handle_cases cfg settings options) as Hc.
  destruct (Sync.handle cfg settings options) as [s|e].
  - exists s. split; [reflexivity|].
    destruct Hc as (Hr & _ & Hc). rewrite Hn in Hc, Hr.
    rewrite (truthy_Some name Hne) in Hc.
    change (default "" (Some name)) with name in Hc.
    destruct Hc as (_ & Hp & Ht). split; [exact Hr|].
    destruct (String.eqb name (get_public_role_name cfg));
      (split; [exact Hp | rewrite Ht]).
    + apply orb_false_r.
    + apply orb_true_r.
  - destruct Hc as (_ & H2 & _). congruence.
Qed.

Lemma sync_with_schema_witness :
  exists s,
    Sync.handle sample_config sample_sync_settings
      (sync_options true false (Some "public")) = inl s
    /\ Sync.sync_public s = true /\ Sync.sync_tenant s = true.
Proof.
  destruct (sync_with_schema sample_config sample_sync_settings
              (sync_options true false (Some "public")) "public")
    as (s & Hs & _ & Hf); try reflexivity; try discriminate.
  exists s. split; [exact Hs | exact Hf].
Defined.

(** ** The tenant chooser *)

Section Chooser.

Import Interactive.

Variable rows : list Tenant.

Lemma get_row_sound name t :
  get_row rows name = inl t -> t ∈ rows /\ row_role_name t = name.
Proof.
  unfold get_row.
  destruct (filter (fun t => row_role_name t = name) rows) as [|t0 [|t1 l]]
    eqn:Hf; try discriminate.
  intros [= <-].
  assert (Hin : t0 ∈ filter (fun t => row_role_name t = name) rows)
    by (rewrite Hf; left).
  apply list_elem_of_filter in Hin as [Hn Hin]. split; assumption.
Qed.

(** The answer of the loop is never the question mark, and the lines that
    are left are the end of the lines that were there. *)
Lemma ask_answer lines answer rest log :
  ask rows lines = (inl answer, rest, log) ->
  answer <> "?" /\ exists asked, lines = asked ++ answer :: rest.
Proof.
  revert rest log. induction lines as [|line lines IH]; intros rest log;
    cbn [ask]; [discriminate|].
  destruct (String.eqb line "?") eqn:He.
  - apply String.eqb_eq in He. subst line.
    destruct (ask rows lines) as [[r rest'] log'] eqn:Ha.
    intros [= -> -> <-].
    destruct (IH rest log' eq_refl) as (Hne & asked & ->).
    split; [exact Hne|]. exists ("?" :: asked). reflexivity.
  - apply String.eqb_neq in He. intros [= <- <- <-].
    split; [exact He|]. exists []. reflexivity.
Qed.

(** [k] question marks, then a name. *)
Lemma ask_question_marks k name rest :
  name <> "?" ->
  ask rows (replicate k "?" ++ name :: rest)
  = (inl name, rest,
     concat (replicate k [Prompted prompt_text; Listed (listing rows)])
     ++ [Prompted prompt_text]).
Proof.
  intros Hne. induction k as [|k IH]; cbn [replicate app ask concat].
  - apply String.eqb_neq in Hne. rewrite Hne. reflexivity.
  - change (String.eqb "?" "?") with true. cbn iota. rewrite IH. reflexivity.
Qed.

End Chooser.

(** X20: with an empty directory the chooser raises [CommandError] before
    it reads a line or prints anything, and [TenantWrappedCommand.handle]
    leaves the connection alone and does not run the command. *)
Theorem chooser_no_tenants
        (execute : DatabaseWrapper -> result unit * DatabaseWrapper)
        (opt_role_name : option string) (lines : list string)
        (w : DatabaseWrapper) :
  Interactive.get_tenant_from_options_or_interactive [] opt_role_name lines
  = (inr (Interactive.CommandError Interactive.no_tenants), lines, [])
  /\ Interactive.handle execute [] opt_role_name lines w
     = (inr (Interactive.CommandError Interactive.no_tenants), w, []).
Proof. split; reflexivity. Qed.

(** X21: a tenant that the chooser returns is a row of the directory; with
    a schema option it carries that name, no line is read and nothing is
    printed; without one its name is a line that was typed and is not the
    question mark. *)
Theorem chooser_sound
        (rows : list Tenant) (opt_role_name : option string)
        (lines rest : list string) (t : Tenant) (log : list Interactive.io) :
  Interactive.get_tenant_from_options_or_interactive rows opt_role_name lines
  = (inl t, rest, log) ->
  t ∈ rows
  /\ if truthy opt_role_name
     then opt_role_name = Some (row_role_name t) /\ rest = lines /\ log = []
     else row_role_name t <> "?"
          /\ exists asked, lines = asked ++ row_role_name t :: rest.
Proof.
  unfold Interactive.get_tenant_from_options_or_interactive.
  destruct rows as [|t0 rows']; [discriminate|].
  destruct (truthy opt_role_name) eqn:Ht.
  - destruct opt_role_name as [name|]; [|discriminate]. cbn [default].
    destruct (bool_decide _); [|discriminate].
    intros [= Hg <- <-].
    apply get_row_sound in Hg as [Hin <-].
    repeat split; assumption.
  - destruct (Interactive.ask (t0 :: rows') lines) as [[[answer|e] rest'] log']
      eqn:Ha; [|discriminate].
    destruct (bool_decide _); [|discriminate].
    intros [= Hg <- <-].
    apply get_row_sound in Hg as [Hin <-].
    split; [exact Hin|].
    exact (ask_answer _ _ _ _ _ Ha).
Qed.

Lemma chooser_sound_witness :
  tenant_acme ∈ [tenant_public; tenant_acme].
Proof.
  refine (proj1 (chooser_sound [tenant_public; tenant_acme] None
                   ["?"; "acme"; "left"] ["left"] tenant_acme _ _)).
  reflexivity.
Defined.

(** X22: asked [k] times for the list and then given a name that is in the
    directory once, the chooser prompts [k + 1] times, prints the list [k]
    times and returns the tenant of that name; the lines after the name
    are not read. *)
Theorem chooser_lists_then_returns
        (rows : list Tenant) (k : nat) (name : string) (rest : list string)
        (t : Tenant) :
  name <> "?" ->
  filter (fun t => row_role_name t = name) rows = [t] ->
  Interactive.get_tenant_from_options_or_interactive rows None
    (replicate k "?" ++ name :: rest)
  = (inl t, rest,
     concat (replicate k [Interactive.Prompted Interactive.prompt_text;
                          Interactive.Listed (Interactive.listing rows)])
     ++ [Interactive.Prompted Interactive.prompt_text]).
Proof.
  intros Hne Hf.
  assert (Hin : t ∈ filter (fun t => row_role_name t = name) rows)
    by (rewrite Hf; left).
  apply list_elem_of_filter in Hin as [Hn Hin].
  unfold Interactive.get_tenant_from_options_or_interactive.
  destruct rows as [|t0 rows']; [inversion Hin|].
  cbn [truthy]. rewrite ask_question_marks by exact Hne.
  rewrite bool_decide_eq_true_2.
  - unfold Interactive.get_row. rewrite Hf. reflexivity.
  - unfold Interactive.role_names. rewrite <- Hn.
    apply list_elem_of_fmap_2, Hin.
Qed.

Lemma chooser_lists_then_returns_witness :
  Interactive.get_tenant_from_options_or_interactive
    [tenant_public; tenant_acme] None ["?"; "?"; "acme"]
  = (inl tenant_acme, [],
     [Interactive.Prompted Interactive.prompt_text;
      Interactive.Listed "public
acme";
      Interactive.Prompted Interactive.prompt_text;
      Interactive.Listed "public
acme";
      Interactive.Prompted Interactive.prompt_text]).
Proof.
  refine (eq_trans (chooser_lists_then_returns [tenant_public; tenant_acme]
                      2 "acme" [] tenant_acme _ _) _).
  - discriminate.
  - reflexivity.
  - reflexivity.
Defined.

(** X23: a name that is not in the directory, given as the option or typed,
    makes the chooser raise [CommandError] with that name in the message. *)
Theorem chooser_unknown_name
        (rows : list Tenant) (name : string) (lines : list string) :
  rows <> [] -> name <> "" -> name <> "?" ->
  name ∉ Interactive.role_names rows ->
  Interactive.get_tenant_from_options_or_interactive rows (Some name) lines
  = (inr (Interactive.CommandError
            ("Invalid tenant schema, '" ++ name ++ "'")%string), lines, [])
  /\ (Interactive.get_tenant_from_options_or_interactive rows None
        (name :: lines)).1.1
     = inr (Interactive.CommandError
              ("Invalid tenant schema, '" ++ name ++ "'")%string).
Proof.
  intros Hrows Hne Hq Hnot.
  unfold Interactive.get_tenant_from_options_or_interactive.
  destruct rows as [|t0 rows']; [congruence|].
  rewrite (truthy_Some name Hne). cbn [truthy Interactive.ask].
  change (default "" (Some name)) with name.
  apply String.eqb_neq in Hq. rewrite Hq.
  split; rewrite (bool_decide_eq_false_2 _ Hnot); reflexivity.
Qed.

Lemma chooser_unknown_name_witness :
  Interactive.get_tenant_from_options_or_interactive
    [tenant_public; tenant_globex] (Some "acme") []
  = (inr (Interactive.CommandError "Invalid tenant schema, 'acme'"), [], []).
Proof.
  refine (proj1 (chooser_unknown_name [tenant_public; tenant_globex] "acme"
                   [] _ _ _ _)); try discriminate.
  intros Hin. unfold Interactive.role_names in Hin. cbn in Hin.
  repeat (apply elem_of_cons in Hin as [Hin|Hin]; [discriminate|]).
  apply elem_of_nil in Hin. exact Hin.
Defined.

(** X24: when the chooser returns a tenant, [TenantWrappedCommand.handle]
    runs the command on the connection with that tenant selected, the
    public role included, and the search path marked as not set. *)
Theorem wrapped_command_runs_on_tenant
        (execute : DatabaseWrapper -> result unit * DatabaseWrapper)
        (rows : list Tenant) (opt_role_name : option string)
        (lines rest : list string) (t : Tenant) (log : list Interactive.io)
        (w : DatabaseWrapper) :
  Interactive.get_tenant_from_options_or_interactive rows opt_role_name lines
  = (inl t, rest, log) ->
  let selected := set_tenant w (ModelTenant t) true in
  role_name selected = Some (row_role_name t)
  /\ include_public_role selected = Some true
  /\ search_path_set selected = Some false
  /\ Interactive.handle execute rows opt_role_name lines w
     = (match (execute selected).1 with
        | inl _ => inl tt
        | inr e => inr (Interactive.Raised e)
        end, (execute selected).2, log).
Proof.
  intros Hc selected. repeat split.
  unfold Interactive.handle. rewrite Hc. fold selected.
  destruct (execute selected) as [[u|e] w']; reflexivity.
Qed.

Lemma wrapped_command_runs_on_tenant_witness :
  Interactive.handle execute_nothing [tenant_public; tenant_acme]
    (Some "acme") [] sample_wrapper
  = (inl tt, set_tenant sample_wrapper (ModelTenant tenant_acme) true, []).
Proof.
  refine (proj2 (proj2 (proj2 (wrapped_command_runs_on_tenant execute_nothing
            [tenant_public; tenant_acme] (Some "acme") [] [] tenant_acme []
            sample_wrapper _)))).
  reflexivity.
Defined.
